(** * lightning_sam_colab: the training driver [train.py]

    A shallow embedding of [train.py] (learning-rate schedule, validation
    loop, training loop, run orchestrator) and the properties of its
    behaviour.

    Conventions of the embedding.
    - Python [int]s are [Z] (or [nat] for lengths and counts); real-valued
      quantities (losses, scores, learning-rate factors) are exact rationals
      [Q]: floating-point rounding is not modelled, and equalities between
      real-valued results are stated up to [Qeq].
    - A 0-dim loss tensor is a [scalar]: [Some q] for a finite value, [None]
      for the non-finite result ([inf] or [nan]) that torch gives for a
      division by zero.
    - Python exceptions raised by code of [train.py] itself are explicit
      ([result]); calls into external components (model, loss kernels,
      metrics, optimizer, scheduler object, [torch.save]) are total functions
      here: the embedding describes the executions in which they return.
    - A dataloader is the list of the batches it yields, the same list each
      time it is iterated.
    - Side effects that leave the process (checkpoint writes, optimizer and
      scheduler steps) and the accesses to the running trackers are recorded,
      in program order, in a list of [Event]s returned next to the result. *)

From Stdlib Require Import ZArith QArith Qabs List String Ascii Bool Lia.
From Stdlib Require Import DecimalString DecimalPos DecimalN Setoid Morphisms Lqa.
Import ListNotations.

Open Scope Z_scope.

(** ** Exceptions of the code under [train.py] *)

Inductive exn : Type :=
| ZeroDivisionError
| IndexError.

Inductive result (A : Type) : Type :=
| Ok (a : A)
| Raise (e : exn).

Arguments Ok {A} a.
Arguments Raise {A} e.

(** ** Configuration ([cfg], a [Box]) *)

Record OptCfg : Type := {
  learning_rate : Q;
  weight_decay : Q;
  warmup_steps : Z;
  steps : list Z;
  decay_factor : Q
}.

Record Cfg : Type := {
  num_epochs : Z;
  num_devices : Z;
  out_dir : string;
  opt : OptCfg
}.

(** ** Learning-rate schedule: [configure_opt.lr_lambda] *)

Module Schedule.

(** Python's [a / b] on numbers: [ZeroDivisionError] when [b] is zero. *)
Definition py_div (a b : Q) : result Q :=
  if Qeq_bool b 0 then Raise ZeroDivisionError else Ok (a / b)%Q.

(** [xs[i]] for a non-negative literal index. *)
Definition py_index (xs : list Z) (i : nat) : result Z :=
  match nth_error xs i with
  | Some x => Ok x
  | None => Raise IndexError
  end.

(** [lr_lambda(step)], branch by branch; [cfg.opt.steps[k]] is evaluated only
    on the branches that reach it. *)
Definition lr_lambda (o : OptCfg) (step : Z) : result Q :=
  if step <? warmup_steps o then
    py_div (inject_Z step) (inject_Z (warmup_steps o))
  else
    match py_index (steps o) 0 with
    | Raise e => Raise e
    | Ok s0 =>
        if step <? s0 then Ok 1%Q
        else
          match py_index (steps o) 1 with
          | Raise e => Raise e
          | Ok s1 =>
              if step <? s1 then py_div 1 (decay_factor o)
              else py_div 1 (decay_factor o ^ 2)%Q
          end
    end.

(** The value returned, compared up to equality of rationals. *)
Definition returns (r : result Q) (q : Q) : Prop :=
  match r with
  | Ok x => (x == q)%Q
  | Raise _ => False
  end.

(** [torch.optim.lr_scheduler.LambdaLR]: the scheduler counts its own calls in
    [last_epoch] (0 after construction) and each [step()] evaluates
    [lr_lambda] at the incremented count; [factor] is that value. *)
Record LambdaLR : Type := {
  last_epoch : Z;
  factor : result Q
}.

Definition lambdalr_init (o : OptCfg) : LambdaLR :=
  {| last_epoch := 0; factor := lr_lambda o 0 |}.

Definition lambdalr_step (o : OptCfg) (s : LambdaLR) : LambdaLR :=
  {| last_epoch := last_epoch s + 1;
     factor := lr_lambda o (last_epoch s + 1) |}.

End Schedule.

(** ** Scalars and the running statistics tracker *)

(** A 0-dim float tensor (or the float read from it with [.item()]):
    [None] stands for a non-finite value. *)
Definition scalar : Type := option Q.

Definition sadd (x y : scalar) : scalar :=
  match x, y with
  | Some a, Some b => Some (a + b)%Q
  | _, _ => None
  end.

(** [x * n] for a natural weight [n]. *)
Definition sscale (x : scalar) (n : nat) : scalar :=
  match x with
  | Some a => Some (a * inject_Z (Z.of_nat n))%Q
  | None => None
  end.

(** [x / n] for a tensor [x] and a Python [int] [n]: torch does not raise on
    a zero divisor, the quotient is [inf] or [nan]. *)
Definition sdiv (x : scalar) (n : nat) : scalar :=
  match x with
  | Some a => if Nat.eqb n 0 then None else Some (a / inject_Z (Z.of_nat n))%Q
  | None => None
  end.

Definition scalar_eq (x y : scalar) : Prop :=
  match x, y with
  | Some a, Some b => (a == b)%Q
  | None, None => True
  | _, _ => False
  end.

Definition is_finite (x : scalar) : bool :=
  match x with Some _ => true | None => false end.

(** Sum of a list of scalars, and of a list of rationals. *)
Definition ssum (xs : list scalar) : scalar := fold_right sadd (Some 0%Q) xs.
Definition qsum (xs : list Q) : Q := fold_right Qplus 0%Q xs.

(** The arithmetic the tracker needs of its values: it is used on metric
    values and on loss values alike. *)
Class MeterValue (A : Type) : Type := {
  mv_zero : A;
  mv_add : A -> A -> A;
  mv_scale : A -> nat -> A;
  mv_div : A -> nat -> A
}.

#[export] Instance MeterValue_Q : MeterValue Q := {
  mv_zero := 0%Q;
  mv_add := Qplus;
  mv_scale := fun v n => (v * inject_Z (Z.of_nat n))%Q;
  mv_div := fun s n => (s / inject_Z (Z.of_nat n))%Q
}.

#[export] Instance MeterValue_scalar : MeterValue scalar := {
  mv_zero := Some 0%Q;
  mv_add := sadd;
  mv_scale := sscale;
  mv_div := sdiv
}.

Module AverageMeter.

(** Modelled from the spec: [utils.AverageMeter] is not part of the sources
    at hand. The tracker "holds cumulative sum, cumulative count, last-value";
    [update(value, weight)] "accumulates sum += value*weight; count += weight;
    last = value"; "average = sum/count (count>0 else undefined/zero)", read
    here as zero when nothing was accumulated. *)
Record t (A : Type) : Type := {
  val : A;
  sum : A;
  count : nat
}.

Arguments val {A} _.
Arguments sum {A} _.
Arguments count {A} _.

Definition new {A} `{MeterValue A} : t A :=
  {| val := mv_zero; sum := mv_zero; count := 0%nat |}.

Definition update {A} `{MeterValue A} (m : t A) (v : A) (n : nat) : t A :=
  {| val := v;
     sum := mv_add (sum m) (mv_scale v n);
     count := (count m + n)%nat |}.

Definition avg {A} `{MeterValue A} (m : t A) : A :=
  if Nat.eqb (count m) 0 then mv_zero else mv_div (sum m) (count m).

End AverageMeter.

(** ** String formatting used for the checkpoint names *)

Module Fmt.

Local Open Scope string_scope.
Local Open Scope Z_scope.

(** Decimal digits of a non-negative integer. *)
Definition dec (z : Z) : string := NilZero.string_of_uint (N.to_uint (Z.to_N z)).

Fixpoint zeros (n : nat) : string :=
  match n with
  | O => ""
  | S n' => "0" ++ zeros n'
  end.

(** Left-pad with ['0'] to width [w]. *)
Definition zfill (w : nat) (s : string) : string :=
  zeros (w - String.length s)%nat ++ s.

(** [f"{z}"] for an [int]. *)
Definition format_d (z : Z) : string :=
  if z <? 0 then "-" ++ dec (- z) else dec z.

(** [f"{z:06d}"]: the sign counts in the width of six. *)
Definition format_06d (z : Z) : string :=
  if z <? 0 then "-" ++ zfill 5 (dec (- z)) else zfill 6 (dec z).

(** Nearest integer, ties to even: the rounding of [float.__format__]. *)
Definition round_half_even (q : Q) : Z :=
  let n := Qnum q in
  let d := Zpos (Qden q) in
  let fl := n / d in
  let r2 := 2 * (n mod d) in
  if r2 <? d then fl
  else if d <? r2 then fl + 1
  else if Z.even fl then fl else fl + 1.

(** [f"{q:.2f}"]. *)
Definition format_2f (q : Q) : string :=
  let c := round_half_even (Qabs q * 100) in
  (if Qle_bool 0 q then "" else "-") ++
  dec (c / 100) ++ "." ++ zfill 2 (dec (c mod 100)).

Fixpoint last_char (s : string) : option ascii :=
  match s with
  | EmptyString => None
  | String c EmptyString => Some c
  | String _ s' => last_char s'
  end.

Definition starts_with_slash (s : string) : bool :=
  match s with
  | String c _ => Ascii.eqb c "/"
  | EmptyString => false
  end.

Definition ends_with_slash (s : string) : bool :=
  match last_char s with
  | Some c => Ascii.eqb c "/"
  | None => false
  end.

(** [os.path.join(a, b)] of [posixpath], for two components. *)
Definition os_path_join (a b : string) : string :=
  if starts_with_slash b then b
  else if (String.eqb a "" || ends_with_slash a)%bool then a ++ b
  else a ++ "/" ++ b.

(** The two file names of [train.py]. *)
Definition periodic_name (epoch : Z) (score : Q) : string :=
  "epoch-" ++ format_06d epoch ++ "-f1" ++ format_2f score ++ "-ckpt.pth".

Definition best_name (epoch : Z) (score : Q) : string :=
  "best-epoch-" ++ format_d epoch ++ "-f1" ++ format_2f score ++ ".pth".

End Fmt.

(** ** External components

    What [train.py] imports and calls but does not define: the model, the
    loss kernels of [losses.py], [utils.calc_iou], the metrics of
    [segmentation_models_pytorch], the optimizer and the scheduler object.
    A tensor of shape [n, H, W] (the masks of one image) is a list of [n]
    masks; a tensor of shape [n, 1] (one value per mask) is a list of [n]
    rationals. *)

Class Components : Type := {
  Image : Type;
  Boxes : Type;                     (* the prompt boxes of one image *)
  Mask : Type;                      (* one H x W mask *)
  Stats : Type;                     (* tp, fp, fn, tn of get_stats *)
  Params : Type;                    (* the parameters of model.model *)
  StateDict : Type;
  Optim : Type;                     (* optimizer state, learning rate included *)
  Sched : Type;
  (* model.model.state_dict() *)
  state_dict : Params -> StateDict;
  (* model(images, bboxes) in training mode ([true]) or eval mode ([false]) *)
  forward : bool -> Params -> list Image -> list Boxes ->
            list (list Mask) * list (list Q);
  (* FocalLoss()(pred_mask, gt_mask, num_masks), DiceLoss()(...) *)
  focal_loss : list Mask -> list Mask -> nat -> scalar;
  dice_loss : list Mask -> list Mask -> nat -> scalar;
  (* calc_iou(pred_mask, gt_mask): one IoU per mask *)
  calc_iou : list Mask -> list Mask -> list Q;
  (* smp.metrics.get_stats(pred_mask, gt_mask.int(), mode='binary', threshold=0.5) *)
  get_stats : list Mask -> list Mask -> Stats;
  (* smp.metrics.iou_score and f1_score on those stats, micro-imagewise *)
  iou_score : Stats -> Q;
  f1_score : Stats -> Q;
  (* optimizer.zero_grad(); fabric.backward(loss_total); optimizer.step() *)
  optimizer_update : Optim -> Params ->
                     list Image * list Boxes * list (list Mask) ->
                     scalar -> Optim * Params;
  (* scheduler.step(): advances the scheduler and sets the optimizer's rate *)
  scheduler_step : Sched -> Optim -> Sched * Optim
}.

(** One element of a dataloader: [(images, bboxes, gt_masks)]. *)
Definition Batch `{Components} : Type :=
  (list Image * list Boxes * list (list Mask))%type.

(** ** Events *)

Inductive Meter : Type :=
| MIous | MF1Scores
| MBatchTime | MDataTime
| MFocalLosses | MDiceLosses | MIouLosses | MTotalLosses.

Inductive SaveSite : Type :=
| InValidate      (* torch.save of validate, line 57 *)
| InTrainSam.     (* torch.save of train_sam, line 128 *)

Inductive Event `{Components} : Type :=
| EvMakedirs (path : string)
| EvNewMeter (m : Meter)                       (* AverageMeter() *)
| EvUpdate (m : Meter) (weight : nat)          (* m.update(v, weight) *)
| EvReadVal (m : Meter)                        (* m.val *)
| EvReadAvg (m : Meter)                        (* m.avg *)
| EvBackward (epoch : Z) (batch_iter : nat) (loss_total : scalar)
| EvOptimizerStep (epoch : Z) (batch_iter : nat)
| EvValidate (epoch : Z)                       (* validate is entered *)
| EvValidated (epoch : Z) (score : Q)          (* validate returns score *)
| EvSave (site : SaveSite) (path : string) (sd : StateDict)
| EvSchedulerStep (epoch : Z).

(** ** Python iteration *)

(** [for x in xs: s = body(s, x)], the events of the iterations in order. *)
Fixpoint for_each {S X E : Type} (body : S -> X -> S * list E)
    (xs : list X) (s : S) : S * list E :=
  match xs with
  | [] => (s, [])
  | x :: xs' =>
      let (s1, t1) := body s x in
      let (s2, t2) := for_each body xs' s1 in
      (s2, t1 ++ t2)
  end.

(** [enumerate(xs)]. *)
Definition enumerate {X : Type} (xs : list X) : list (nat * X) :=
  combine (seq 0 (List.length xs)) xs.

(** [zip(xs, ys, zs)]: stops with the shortest. *)
Definition zip3 {A B C : Type} (xs : list A) (ys : list B) (zs : list C)
  : list (A * B * C) :=
  combine (combine xs ys) zs.

(** [range(a, b)]. *)
Definition py_range (a b : Z) : list Z :=
  map (fun i => a + Z.of_nat i) (seq 0 (Z.to_nat (b - a))).

(** [F.mse_loss(input, target, reduction='sum')] on two tensors of the same
    shape [n, 1], the shape of [iou_prediction] and of [calc_iou]'s result
    for an image with [n] prompts. *)
Definition mse_loss_sum (input target : list Q) : Q :=
  qsum (map (fun p => (fst p - snd p) ^ 2)%Q (combine input target)).

Definition Qgtb (x y : Q) : bool := negb (Qle_bool x y).

(** ** The per-batch loss of [train_sam] (lines 94-105) *)

Section Loss.
Context `{Components}.

Record Losses : Type := {
  loss_focal : scalar;
  loss_dice : scalar;
  loss_iou : scalar
}.

(** [sum(len(pred_mask) for pred_mask in pred_masks)]. *)
Definition count_masks (pred_masks : list (list Mask)) : nat :=
  list_sum (map (@List.length Mask) pred_masks).

(** The body of the loop over [zip(pred_masks, gt_masks, iou_predictions)]. *)
Definition loss_step (num_masks : nat) (acc : Losses)
    (t : list Mask * list Mask * list Q) : Losses :=
  let '(pred_mask, gt_mask, iou_prediction) := t in
  let batch_iou := calc_iou pred_mask gt_mask in
  {| loss_focal := sadd (loss_focal acc) (focal_loss pred_mask gt_mask num_masks);
     loss_dice := sadd (loss_dice acc) (dice_loss pred_mask gt_mask num_masks);
     loss_iou := sadd (loss_iou acc)
                   (sdiv (Some (mse_loss_sum iou_prediction batch_iou)) num_masks) |}.

Definition batch_losses (pred_masks gt_masks : list (list Mask))
    (iou_predictions : list (list Q)) : Losses :=
  let num_masks := count_masks pred_masks in
  fold_left (loss_step num_masks)
    (zip3 pred_masks gt_masks iou_predictions)
    {| loss_focal := Some 0%Q; loss_dice := Some 0%Q; loss_iou := Some 0%Q |}.

Definition loss_total (l : Losses) : scalar :=
  sadd (sadd (loss_focal l) (loss_dice l)) (loss_iou l).

End Loss.

(** ** [validate] *)

Section Validate.
Context `{Components}.

(** The model object: its parameters and its train/eval mode flag. *)
Record Model : Type := {
  params : Params;
  training : bool
}.

Definition ValMeters : Type := (AverageMeter.t Q * AverageMeter.t Q)%type.

(** The body of the loop over [zip(pred_masks, gt_masks)] (lines 39-48). *)
Definition validate_pair (num_images : nat) (ms : ValMeters)
    (p : list Mask * list Mask) : ValMeters * list Event :=
  let '(ious, f1_scores) := ms in
  let '(pred_mask, gt_mask) := p in
  let batch_stats := get_stats pred_mask gt_mask in
  let batch_iou := iou_score batch_stats in
  let batch_f1 := f1_score batch_stats in
  ((AverageMeter.update ious batch_iou num_images,
    AverageMeter.update f1_scores batch_f1 num_images),
   [EvUpdate MIous num_images; EvUpdate MF1Scores num_images]).

(** The body of the loop over the validation batches (lines 35-50); the
    progress description reads both averages. *)
Definition validate_batch (ps : Params) (ms : ValMeters)
    (item : nat * Batch) : ValMeters * list Event :=
  let '(n, (images, bboxes, gt_masks)) := item in
  let num_images := List.length images in
  let '(pred_masks, _) := forward false ps images bboxes in
  let (ms', t) := for_each (validate_pair num_images)
                    (combine pred_masks gt_masks) ms in
  (ms', t ++ [EvReadAvg MIous; EvReadAvg MF1Scores]).

(** The loop over [enumerate(bar_dataloader)] with its two fresh trackers
    (lines 28-50). *)
Definition validate_loop (ps : Params) (val_dataloader : list Batch)
  : ValMeters * list Event :=
  for_each (validate_batch ps) (enumerate val_dataloader)
    (AverageMeter.new, AverageMeter.new).

(** Lines 55-57: the write of the periodic checkpoint and its rank gate. The
    file name is formatted, and the average read, only inside the gate. *)
Definition periodic_write (global_rank : nat) (cfg : Cfg) (ps : Params)
    (epoch : Z) (f1_scores : AverageMeter.t Q) : list Event :=
  let sd := state_dict ps in
  if Nat.eqb global_rank 0 then
    [EvReadAvg MF1Scores;
     EvSave InValidate
       (Fmt.os_path_join (out_dir cfg)
          (Fmt.periodic_name epoch (AverageMeter.avg f1_scores))) sd]
  else [].

(** [validate(fabric, model, cfg, val_dataloader, epoch)]: the model as it is
    left (back in training mode), the returned mean F1 and the events. *)
Definition validate (global_rank : nat) (m : Model) (cfg : Cfg)
    (val_dataloader : list Batch) (epoch : Z) : Model * Q * list Event :=
  let m_eval := {| params := params m; training := false |} in
  let (ms, t_loop) := validate_loop (params m_eval) val_dataloader in
  let f1_scores := snd ms in
  let t_save := periodic_write global_rank cfg (params m_eval) epoch f1_scores in
  let score := AverageMeter.avg f1_scores in
  ({| params := params m_eval; training := true |},
   score,
   [EvValidate epoch; EvNewMeter MIous; EvNewMeter MF1Scores]
   ++ t_loop
   ++ [EvReadAvg MIous; EvReadAvg MF1Scores]
   ++ t_save
   ++ [EvReadAvg MF1Scores; EvValidated epoch score]).

(** The mean F1 [validate] returns for the parameters [ps]. *)
Definition validate_score (ps : Params) (val_dataloader : list Batch) : Q :=
  AverageMeter.avg (snd (fst (validate_loop ps val_dataloader))).

End Validate.

(** ** [train_sam] *)

Section TrainSam.
Context `{Components}.

(** What the training loop carries from one step to the next. *)
Record TrainState : Type := {
  model : Model;
  optimizer : Optim;
  scheduler : Sched;
  best_score : Q
}.

(** The loss trackers of one epoch. The two time trackers are fed from the
    wall clock and never read: only their creation and updates are recorded,
    as events. *)
Record EpochMeters : Type := {
  focal_losses : AverageMeter.t scalar;
  dice_losses : AverageMeter.t scalar;
  iou_losses : AverageMeter.t scalar;
  total_losses : AverageMeter.t scalar
}.

Definition new_epoch_meters : EpochMeters :=
  {| focal_losses := AverageMeter.new;
     dice_losses := AverageMeter.new;
     iou_losses := AverageMeter.new;
     total_losses := AverageMeter.new |}.

(** The body of the loop over the training batches (lines 90-120). *)
Definition train_batch (epoch : Z) (s : TrainState * EpochMeters)
    (item : nat * Batch) : (TrainState * EpochMeters) * list Event :=
  let '(st, ms) := s in
  let '(batch_iter, (images, bboxes, gt_masks)) := item in
  let batch_size := List.length images in
  let '(pred_masks, iou_predictions) :=
    forward (training (model st)) (params (model st)) images bboxes in
  let l := batch_losses pred_masks gt_masks iou_predictions in
  let total := loss_total l in
  let '(optimizer', params') :=
    optimizer_update (optimizer st) (params (model st))
      (images, bboxes, gt_masks) total in
  let st' := {| model := {| params := params';
                            training := training (model st) |};
                optimizer := optimizer';
                scheduler := scheduler st;
                best_score := best_score st |} in
  let ms' :=
    {| focal_losses := AverageMeter.update (focal_losses ms) (loss_focal l) batch_size;
       dice_losses := AverageMeter.update (dice_losses ms) (loss_dice l) batch_size;
       iou_losses := AverageMeter.update (iou_losses ms) (loss_iou l) batch_size;
       total_losses := AverageMeter.update (total_losses ms) total batch_size |} in
  ((st', ms'),
   [EvUpdate MDataTime 1;
    EvBackward epoch batch_iter total;
    EvOptimizerStep epoch batch_iter;
    EvUpdate MBatchTime 1;
    EvUpdate MFocalLosses batch_size;
    EvUpdate MDiceLosses batch_size;
    EvUpdate MIouLosses batch_size;
    EvUpdate MTotalLosses batch_size;
    EvReadVal MFocalLosses; EvReadVal MDiceLosses;
    EvReadVal MIouLosses; EvReadVal MTotalLosses]).

(** The loop over [enumerate(bar_dataloder)] with the epoch's fresh loss
    trackers (lines 89-120). *)
Definition train_batches (epoch : Z) (train_dataloader : list Batch)
    (st : TrainState) : (TrainState * EpochMeters) * list Event :=
  for_each (train_batch epoch) (enumerate train_dataloader)
    (st, new_epoch_meters).

(** Lines 125-128: the comparison with [best_score] and the write it gates. *)
Definition save_if_best (cfg : Cfg) (epoch : Z) (score : Q) (m : Model)
    (best : Q) : Q * list Event :=
  if Qgtb score best then
    (score,
     [EvSave InTrainSam
        (Fmt.os_path_join (out_dir cfg) (Fmt.best_name epoch score))
        (state_dict (params m))])
  else (best, []).

(** The body of the loop over the epochs (lines 78-131). *)
Definition train_epoch (cfg : Cfg) (global_rank : nat)
    (train_dataloader val_dataloader : list Batch)
    (st : TrainState) (epoch : Z) : TrainState * list Event :=
  let '((st1, _), t_batches) := train_batches epoch train_dataloader st in
  let '(model2, score, t_val) :=
    validate global_rank (model st1) cfg val_dataloader epoch in
  let (best', t_best) := save_if_best cfg epoch score model2 (best_score st1) in
  let (scheduler', optimizer') := scheduler_step (scheduler st1) (optimizer st1) in
  ({| model := model2;
      optimizer := optimizer';
      scheduler := scheduler';
      best_score := best' |},
   [EvNewMeter MBatchTime; EvNewMeter MDataTime;
    EvNewMeter MFocalLosses; EvNewMeter MDiceLosses;
    EvNewMeter MIouLosses; EvNewMeter MTotalLosses]
   ++ t_batches
   ++ [EvReadAvg MFocalLosses; EvReadAvg MDiceLosses;
       EvReadAvg MIouLosses; EvReadAvg MTotalLosses]
   ++ t_val
   ++ t_best
   ++ [EvSchedulerStep epoch]).

(** The loop over a list of epochs, from any state. *)
Definition train_epochs (cfg : Cfg) (global_rank : nat)
    (train_dataloader val_dataloader : list Batch)
    (epochs : list Z) (st : TrainState) : TrainState * list Event :=
  for_each (train_epoch cfg global_rank train_dataloader val_dataloader)
    epochs st.

(** [train_sam(cfg, fabric, model, optimizer, scheduler, train_dataloader,
    val_dataloader)]. *)
Definition train_sam (cfg : Cfg) (global_rank : nat) (m : Model)
    (o : Optim) (s : Sched) (train_dataloader val_dataloader : list Batch)
  : TrainState * list Event :=
  train_epochs cfg global_rank train_dataloader val_dataloader
    (py_range 1 (num_epochs cfg))
    {| model := m; optimizer := o; scheduler := s; best_score := 0%Q |}.

(** [run(cfg)] from the point where the model, the dataloaders, the optimizer
    and the scheduler exist: the directory creation of the coordinator, the
    training loop, and the final validation with epoch label 0. *)
Definition run (cfg : Cfg) (global_rank : nat) (m : Model)
    (o : Optim) (s : Sched) (train_data val_data : list Batch) : list Event :=
  let t_dir := if Nat.eqb global_rank 0 then [EvMakedirs (out_dir cfg)] else [] in
  let (st, t_train) := train_sam cfg global_rank m o s train_data val_data in
  let '(_, _, t_val) := validate global_rank (model st) cfg val_data 0 in
  t_dir ++ t_train ++ t_val.

End TrainSam.

(** ** Observations on event lists *)

Section Observations.
Context `{Components}.

(** The phases the ordering claims speak of. *)
Inductive Phase : Type :=
| PTrainStep (epoch : Z) (batch_iter : nat)   (* optimizer stepped on a batch *)
| PValidate (epoch : Z)                       (* validate called *)
| PSchedulerStep (epoch : Z).                 (* scheduler.step() *)

Definition phase_of (e : Event) : list Phase :=
  match e with
  | EvOptimizerStep ep b => [PTrainStep ep b]
  | EvValidate ep => [PValidate ep]
  | EvSchedulerStep ep => [PSchedulerStep ep]
  | _ => []
  end.

Definition phases (tr : list Event) : list Phase := flat_map phase_of tr.

(** The phases of one epoch over [nb] training batches, in the order the
    specification gives them. *)
Definition epoch_phases (nb : nat) (epoch : Z) : list Phase :=
  map (PTrainStep epoch) (seq 0 nb) ++ [PValidate epoch; PSchedulerStep epoch].

(** The epoch labels [validate] was called with, in order. *)
Definition validate_call_of (e : Event) : list Z :=
  match e with
  | EvValidate ep => [ep]
  | _ => []
  end.

Definition validate_calls (tr : list Event) : list Z :=
  flat_map validate_call_of tr.

(** Validation results, in order: [(epoch, score)] of each return. *)
Definition validated_of (e : Event) : list (Z * Q) :=
  match e with
  | EvValidated ep s => [(ep, s)]
  | _ => []
  end.

Definition validated (tr : list Event) : list (Z * Q) := flat_map validated_of tr.

(** Paths written, by call site, in order. *)
Definition saved_of (site : SaveSite) (e : Event) : list string :=
  match e, site with
  | EvSave InValidate p _, InValidate => [p]
  | EvSave InTrainSam p _, InTrainSam => [p]
  | _, _ => []
  end.

Definition saved (site : SaveSite) (tr : list Event) : list string :=
  flat_map (saved_of site) tr.

(** All checkpoint writes with their contents. *)
Definition writes_of (e : Event) : list (SaveSite * string * StateDict) :=
  match e with
  | EvSave site p sd => [(site, p, sd)]
  | _ => []
  end.

Definition writes (tr : list Event) : list (SaveSite * string * StateDict) :=
  flat_map writes_of tr.

(** Tracker updates, in order. *)
Definition updates_of (e : Event) : list (Meter * nat) :=
  match e with
  | EvUpdate m w => [(m, w)]
  | _ => []
  end.

Definition updates (tr : list Event) : list (Meter * nat) := flat_map updates_of tr.

(** The losses handed to [fabric.backward]. *)
Definition backward_of (e : Event) : list scalar :=
  match e with
  | EvBackward _ _ l => [l]
  | _ => []
  end.

(** Events that only touch a running tracker. *)
Definition meter_event (e : Event) : bool :=
  match e with
  | EvNewMeter _ | EvUpdate _ _ | EvReadVal _ | EvReadAvg _ => true
  | _ => false
  end.

(** Events of one training batch: tracker accesses, the backward pass and the
    optimizer step. *)
Definition batch_event (e : Event) : bool :=
  match e with
  | EvBackward _ _ _ | EvOptimizerStep _ _ => true
  | _ => meter_event e
  end.

Definition Meter_eqb (a b : Meter) : bool :=
  match a, b with
  | MIous, MIous | MF1Scores, MF1Scores
  | MBatchTime, MBatchTime | MDataTime, MDataTime
  | MFocalLosses, MFocalLosses | MDiceLosses, MDiceLosses
  | MIouLosses, MIouLosses | MTotalLosses, MTotalLosses => true
  | _, _ => false
  end.





End Observations.

(** ** The specification's wording, for comparison with the code *)

Section SpecWording.
Context `{Components}.

(** "the sum over all masks of focal(pred_i, gt_i, num_masks)": one kernel
    call per mask of the batch. *)
Definition focal_sum_over_masks (pred_masks gt_masks : list (list Mask))
    (iou_predictions : list (list Q)) : scalar :=
  let num_masks := count_masks pred_masks in
  ssum (flat_map
          (fun t : list Mask * list Mask * list Q =>
             let '(pred_mask, gt_mask, _) := t in
             map (fun pg => focal_loss [fst pg] [snd pg] num_masks)
                 (combine pred_mask gt_mask))
          (zip3 pred_masks gt_masks iou_predictions)).

(** What one image triple adds to each loss when the normalisation count is
    [n]: one kernel call on the image's whole stack of masks. *)
Definition focal_term (n : nat) (t : list Mask * list Mask * list Q) : scalar :=
  let '(pred_mask, gt_mask, _) := t in focal_loss pred_mask gt_mask n.

Definition dice_term (n : nat) (t : list Mask * list Mask * list Q) : scalar :=
  let '(pred_mask, gt_mask, _) := t in dice_loss pred_mask gt_mask n.

Definition iou_term (n : nat) (t : list Mask * list Mask * list Q) : scalar :=
  let '(pred_mask, gt_mask, iou_prediction) := t in
  sdiv (Some (mse_loss_sum iou_prediction (calc_iou pred_mask gt_mask))) n.

(** The sum over the batch's image triples of a per-image term. *)
Definition sum_over_images (term : list Mask * list Mask * list Q -> scalar)
    (pred_masks gt_masks : list (list Mask)) (iou_predictions : list (list Q))
  : scalar :=
  ssum (map term (zip3 pred_masks gt_masks iou_predictions)).

End SpecWording.

(** The path of the best checkpoint of an epoch with its score. *)
Definition best_path (cfg : Cfg) (es : Z * Q) : string :=
  Fmt.os_path_join (out_dir cfg) (Fmt.best_name (fst es) (snd es)).

(** The path of the periodic checkpoint of an epoch with its score. *)
Definition periodic_path (cfg : Cfg) (es : Z * Q) : string :=
  Fmt.os_path_join (out_dir cfg) (Fmt.periodic_name (fst es) (snd es)).

(** A write as one of the two statements of [train.py] produces it. *)
Definition checkpoint_shaped `{Components} (cfg : Cfg)
    (w : SaveSite * string * StateDict) : Prop :=
  exists (epoch : Z) (score : Q) (ps : Params),
    w = (InValidate, periodic_path cfg (epoch, score), state_dict ps)
    \/ w = (InTrainSam, best_path cfg (epoch, score), state_dict ps).




(** "written at epoch e if and only if that epoch's validation score strictly
    exceeds every prior epoch's score (and exceeds 0)": the epochs that
    qualify, given the scores seen before. *)
Fixpoint record_breakers_from (prior : list Q) (vals : list (Z * Q))
  : list (Z * Q) :=
  match vals with
  | [] => []
  | (e, s) :: rest =>
      (if forallb (fun p => Qgtb s p) prior then [(e, s)] else [])
      ++ record_breakers_from (prior ++ [s]) rest
  end.

Definition record_breakers (vals : list (Z * Q)) : list (Z * Q) :=
  record_breakers_from [0%Q] vals.

(** ** A small concrete instance

    One-pixel masks, a model whose parameters are the number of optimizer
    updates it has received, and loss kernels that take a mean over the stack
    of masks they are given. It serves to run the loops on concrete inputs. *)

Module Toy.

(** The F1 the toy model reaches after [n] optimizer updates. *)
Definition quality (n : nat) : Q :=
  nth n [1 # 10; 3 # 10; 5 # 10; 4 # 10; 6 # 10]%Q (6 # 10)%Q.

(** Mean absolute error over the masks of one image. *)
Definition mean_abs_error (pred gt : list Q) : Q :=
  (qsum (map (fun p => Qabs (fst p - snd p)) (combine pred gt))
   / inject_Z (Z.of_nat (List.length pred)))%Q.

Definition opt_cfg : OptCfg :=
  {| learning_rate := 8 # 10000;
     weight_decay := 1 # 10;
     warmup_steps := 250;
     steps := [60000; 86666];
     decay_factor := 10 |}.

Definition cfg : Cfg :=
  {| num_epochs := 5; num_devices := 2; out_dir := "out/training"; opt := opt_cfg |}.

#[export] Instance components : Components := {
  Image := unit;
  Boxes := nat;                    (* the number of prompt boxes *)
  Mask := Q;
  Stats := Q;
  Params := nat;
  StateDict := nat;
  Optim := nat;
  Sched := Schedule.LambdaLR;
  state_dict := fun ps => ps;
  forward := fun _ ps _ bboxes =>
    (map (fun n => repeat (quality ps) n) bboxes,
     map (fun n => repeat (quality ps) n) bboxes);
  focal_loss := fun pred gt n => sdiv (Some (mean_abs_error pred gt)) n;
  dice_loss := fun pred gt n => sdiv (Some (mean_abs_error pred gt)) n;
  calc_iou := fun pred gt =>
    map (fun p => if Qeq_bool (fst p) (snd p) then 1%Q else 0%Q) (combine pred gt);
  get_stats := fun pred _ => hd 0%Q pred;
  iou_score := fun s => s;
  f1_score := fun s => s;
  optimizer_update := fun o ps _ _ => (S o, S ps);
  scheduler_step := fun s o => (Schedule.lambdalr_step opt_cfg s, o)
}.

(** One image with one prompt. *)
Definition batch1 : Batch := ([tt], [1%nat], [[1%Q]]).

(** Two images, with one and two prompts. *)
Definition batch12 : Batch := ([tt; tt], [1%nat; 2%nat], [[1%Q]; [1%Q; 1%Q]]).

Definition model0 : Model := {| params := 0%nat; training := true |}.

Definition sched0 : Schedule.LambdaLR := Schedule.lambdalr_init opt_cfg.

End Toy.

(** ** Further observations *)

(** The (predicted, ground-truth) pairs the validation loop visits in the
    batch [b] when the model has the parameters [ps]. *)
Definition val_pairs `{Components} (ps : Params) (b : Batch)
  : list (list Mask * list Mask) :=
  let '(images, bboxes, gt_masks) := b in
  combine (fst (forward false ps images bboxes)) gt_masks.

(** The number of images of a batch, [images.size(0)]. *)
Definition batch_images `{Components} (b : Batch) : nat :=
  List.length (fst (fst b)).

(** The weights of the updates of the tracker [m], in order. *)
Definition weight_of `{Components} (m : Meter) (e : Event) : list nat :=
  match e with
  | EvUpdate m' w => if Meter_eqb m m' then [w] else []
  | _ => []
  end.

(** Backward passes and optimizer steps, in order. *)
Inductive GradPhase : Type :=
| GBackward (epoch : Z) (batch_iter : nat)
| GStep (epoch : Z) (batch_iter : nat).

Definition grad_of `{Components} (e : Event) : list GradPhase :=
  match e with
  | EvBackward ep b _ => [GBackward ep b]
  | EvOptimizerStep ep b => [GStep ep b]
  | _ => []
  end.

(** The directories created, in order. *)
Definition makedirs_of `{Components} (e : Event) : list string :=
  match e with
  | EvMakedirs p => [p]
  | _ => []
  end.

(** The paths of all checkpoint writes, in order. *)
Definition written_paths `{Components} (tr : list Event) : list string :=
  map (fun w => snd (fst w)) (writes tr).

(** A property of every character of a string. *)
Fixpoint string_forall (p : ascii -> bool) (s : string) : bool :=
  match s with
  | EmptyString => true
  | String c s' => p c && string_forall p s'
  end.

Definition is_digit (c : ascii) : bool :=
  (Nat.leb 48 (nat_of_ascii c) && Nat.leb (nat_of_ascii c) 57)%bool.

(** The number a string of decimal digits denotes. *)
Definition read_digits (s : string) : option Z :=
  option_map (fun d => Z.of_N (N.of_uint d)) (NilEmpty.uint_of_string s).

(** * Properties *)

(** ** Scalars *)

Lemma scalar_eq_refl (x : scalar) : scalar_eq x x.
Proof. destruct x; simpl; [reflexivity | exact I]. Qed.

Lemma scalar_eq_sym (x y : scalar) : scalar_eq x y -> scalar_eq y x.
Proof. destruct x, y; simpl; auto. intros E. symmetry. exact E. Qed.

Lemma scalar_eq_trans (x y z : scalar) :
  scalar_eq x y -> scalar_eq y z -> scalar_eq x z.
Proof.
  destruct x, y, z; simpl; try tauto.
  intros E1 E2. rewrite E1. exact E2.
Qed.

#[export] Instance scalar_eq_Equivalence : Equivalence scalar_eq.
Proof.
  split.
  - exact scalar_eq_refl.
  - exact scalar_eq_sym.
  - exact scalar_eq_trans.
Qed.

#[export] Instance sadd_Proper : Proper (scalar_eq ==> scalar_eq ==> scalar_eq) sadd.
Proof.
  intros [a|] [b|] E1 [c|] [d|] E2; simpl in *; try tauto.
  rewrite E1, E2. reflexivity.
Qed.

Lemma sadd_assoc (x y z : scalar) :
  scalar_eq (sadd (sadd x y) z) (sadd x (sadd y z)).
Proof. destruct x, y, z; simpl; try exact I. ring. Qed.

Lemma sadd_zero_r (x : scalar) : scalar_eq (sadd x (Some 0%Q)) x.
Proof. destruct x; simpl; [ring | exact I]. Qed.

Lemma sadd_zero_l (x : scalar) : scalar_eq (sadd (Some 0%Q) x) x.
Proof. destruct x; simpl; [ring | exact I]. Qed.

Lemma sdiv_zero (x : scalar) : sdiv x 0 = None.
Proof. destruct x; reflexivity. Qed.

(** A list of scalars sums to a finite value exactly when all are finite. *)
Lemma ssum_finite (xs : list scalar) :
  is_finite (ssum xs) = forallb is_finite xs.
Proof.
  induction xs as [|x xs IH]; simpl; [reflexivity|].
  rewrite <- IH. unfold ssum. destruct x, (fold_right sadd (Some 0%Q) xs); reflexivity.
Qed.

(** ** Loops *)

Lemma py_range_length (a b : Z) : List.length (py_range a b) = Z.to_nat (b - a).
Proof. unfold py_range. rewrite length_map, length_seq. reflexivity. Qed.

Lemma py_range_In (a b e : Z) : In e (py_range a b) <-> a <= e < b.
Proof.
  unfold py_range. rewrite in_map_iff. split.
  - intros (i & <- & Hi). apply in_seq in Hi. lia.
  - intros He. exists (Z.to_nat (e - a)). split; [lia|].
    apply in_seq. lia.
Qed.

Lemma py_range_empty (a b : Z) : b <= a -> py_range a b = [].
Proof.
  intros Hab. unfold py_range.
  replace (Z.to_nat (b - a)) with 0%nat by lia. reflexivity.
Qed.

(** ** The per-batch loss *)

Section LossFacts.
Context `{Components}.

Lemma fold_loss_step (n : nat) (ts : list (list Mask * list Mask * list Q))
    (acc : Losses) :
  let l := fold_left (loss_step n) ts acc in
  scalar_eq (loss_focal l) (sadd (loss_focal acc) (ssum (map (focal_term n) ts)))
  /\ scalar_eq (loss_dice l) (sadd (loss_dice acc) (ssum (map (dice_term n) ts)))
  /\ scalar_eq (loss_iou l) (sadd (loss_iou acc) (ssum (map (iou_term n) ts))).
Proof.
  revert acc. induction ts as [|[[p g] q] ts IH]; intros acc; simpl.
  - repeat split; symmetry; apply sadd_zero_r.
  - destruct (IH (loss_step n acc (p, g, q))) as (Hf & Hd & Hi).
    repeat split.
    + etransitivity; [exact Hf|]. simpl. apply sadd_assoc.
    + etransitivity; [exact Hd|]. simpl. apply sadd_assoc.
    + etransitivity; [exact Hi|]. simpl. apply sadd_assoc.
Qed.

Lemma batch_losses_sums (pred_masks gt_masks : list (list Mask))
    (iou_predictions : list (list Q)) :
  let n := count_masks pred_masks in
  let l := batch_losses pred_masks gt_masks iou_predictions in
  scalar_eq (loss_focal l)
    (sum_over_images (focal_term n) pred_masks gt_masks iou_predictions)
  /\ scalar_eq (loss_dice l)
    (sum_over_images (dice_term n) pred_masks gt_masks iou_predictions)
  /\ scalar_eq (loss_iou l)
    (sum_over_images (iou_term n) pred_masks gt_masks iou_predictions).
Proof.
  intros n l. unfold l, batch_losses, sum_over_images. fold n.
  destruct (fold_loss_step n (zip3 pred_masks gt_masks iou_predictions)
              {| loss_focal := Some 0%Q; loss_dice := Some 0%Q; loss_iou := Some 0%Q |})
    as (Hf & Hd & Hi).
  repeat split.
  - etransitivity; [exact Hf|]. apply sadd_zero_l.
  - etransitivity; [exact Hd|]. apply sadd_zero_l.
  - etransitivity; [exact Hi|]. apply sadd_zero_l.
Qed.

End LossFacts.

Lemma is_finite_scalar_eq (x y : scalar) :
  scalar_eq x y -> is_finite x = is_finite y.
Proof. destruct x, y; simpl; tauto. Qed.

Lemma iou_term_finite `{Components} (n : nat)
    (t : list Mask * list Mask * list Q) :
  is_finite (iou_term n t) = negb (Nat.eqb n 0).
Proof. destruct t as [[p g] q]. simpl. destruct (Nat.eqb n 0); reflexivity. Qed.

Lemma forallb_map_eq {A B : Type} (f : A -> B) (p : B -> bool) (xs : list A) :
  forallb p (map f xs) = forallb (fun x => p (f x)) xs.
Proof. induction xs as [|x xs IH]; simpl; [reflexivity | now rewrite IH]. Qed.

Lemma forallb_const {A : Type} (b : bool) (f : A -> bool) (xs : list A) :
  (forall x, f x = b) -> xs <> [] -> forallb f xs = b.
Proof.
  intros Hf Hxs. induction xs as [|x xs IH]; [congruence|].
  simpl. rewrite Hf. destruct xs as [|y ys].
  - simpl. apply andb_true_r.
  - rewrite IH by discriminate. apply andb_diag.
Qed.

(** C1, as amended. The normalisation count is the number of predicted masks
    of the whole batch, [sum(len(pred_mask) for pred_mask in pred_masks)],
    also when [zip] stops early; this one value is the third argument of
    every focal and dice kernel call of the batch and the divisor of every
    IoU-regression term. The kernels are called once per image, on the
    image's whole stack of masks: [loss_focal] is the sum over the batch's
    image triples of [focal(pred_mask, gt_mask, num_masks)], and likewise for
    [loss_dice] and [loss_iou]. *)
Theorem num_masks_shared_batch_wide `{Components}
    (pred_masks gt_masks : list (list Mask)) (iou_predictions : list (list Q)) :
  let num_masks := list_sum (map (@List.length Mask) pred_masks) in
  let l := batch_losses pred_masks gt_masks iou_predictions in
  scalar_eq (loss_focal l)
    (sum_over_images (fun '(pred_mask, gt_mask, _) =>
                        focal_loss pred_mask gt_mask num_masks)
       pred_masks gt_masks iou_predictions)
  /\ scalar_eq (loss_dice l)
    (sum_over_images (fun '(pred_mask, gt_mask, _) =>
                        dice_loss pred_mask gt_mask num_masks)
       pred_masks gt_masks iou_predictions)
  /\ scalar_eq (loss_iou l)
    (sum_over_images (fun '(pred_mask, gt_mask, iou_prediction) =>
                        sdiv (Some (mse_loss_sum iou_prediction
                                      (calc_iou pred_mask gt_mask))) num_masks)
       pred_masks gt_masks iou_predictions).
Proof.
  exact (batch_losses_sums pred_masks gt_masks iou_predictions).
Qed.

(** C1 as the specification words it fails: on a batch of two images with one
    and two masks (num_masks = 3) and a kernel that takes the mean over the
    stack it is given, the code's [loss_focal] has two terms and is 2/3,
    while the sum over the three masks is 1. *)
Lemma focal_sum_is_per_image_not_per_mask :
  let pred_masks := [[0]; [0; 0]]%Q in
  let gt_masks := [[1]; [1; 1]]%Q in
  let iou_predictions := [[1 # 2]; [1 # 2; 1 # 2]]%Q in
  count_masks (H := Toy.components) pred_masks = 3%nat
  /\ scalar_eq
       (loss_focal (batch_losses (H := Toy.components)
                      pred_masks gt_masks iou_predictions))
       (Some (2 # 3)%Q)
  /\ scalar_eq
       (focal_sum_over_masks (H := Toy.components)
          pred_masks gt_masks iou_predictions)
       (Some 1%Q)
  /\ ~ scalar_eq
       (loss_focal (batch_losses (H := Toy.components)
                      pred_masks gt_masks iou_predictions))
       (focal_sum_over_masks (H := Toy.components)
          pred_masks gt_masks iou_predictions).
Proof.
  vm_compute. repeat split; intros; discriminate.
Qed.

(** C2. [loss_iou] is the sum over the batch's image triples of
    [mse(iou_prediction, calc_iou(pred_mask, gt_mask), sum) / num_masks]; the
    loss handed to the backward pass of a batch is
    [loss_focal + loss_dice + loss_iou] of that batch; and for two images
    with one and two masks, num_masks is 3 and [loss_iou] is the sum of the
    three masks' squared errors divided by 3. *)
Theorem loss_iou_and_total `{Components} :
  (forall (pred_masks gt_masks : list (list Mask))
          (iou_predictions : list (list Q)),
      scalar_eq
        (loss_iou (batch_losses pred_masks gt_masks iou_predictions))
        (sum_over_images
           (fun '(pred_mask, gt_mask, iou_prediction) =>
              sdiv (Some (mse_loss_sum iou_prediction
                            (calc_iou pred_mask gt_mask)))
                   (count_masks pred_masks))
           pred_masks gt_masks iou_predictions))
  /\ (forall (epoch : Z) (st : TrainState) (ms : EpochMeters)
             (batch_iter : nat) (images : list Image) (bboxes : list Boxes)
             (gt_masks : list (list Mask)),
         let out := forward (training (model st)) (params (model st))
                      images bboxes in
         let l := batch_losses (fst out) gt_masks (snd out) in
         flat_map backward_of
           (snd (train_batch epoch (st, ms)
                   (batch_iter, (images, bboxes, gt_masks))))
         = [sadd (sadd (loss_focal l) (loss_dice l)) (loss_iou l)])
  /\ (forall (m1 m2 m3 : Mask) (g1 g2 : list Mask) (q1 q2 q3 a1 a2 a3 : Q),
         calc_iou [m1] g1 = [a1] ->
         calc_iou [m2; m3] g2 = [a2; a3] ->
         count_masks [[m1]; [m2; m3]] = 3%nat
         /\ scalar_eq
              (loss_iou (batch_losses [[m1]; [m2; m3]] [g1; g2]
                           [[q1]; [q2; q3]]))
              (Some (((q1 - a1) ^ 2 + (q2 - a2) ^ 2 + (q3 - a3) ^ 2) / 3)%Q)).
Proof.
  split; [|split].
  - intros pm gm ip. apply (batch_losses_sums pm gm ip).
  - intros epoch st ms batch_iter images bboxes gt_masks out l.
    unfold train_batch. fold out.
    destruct out as [pred_masks iou_predictions] eqn:Eout. simpl in l. fold l.
    destruct (optimizer_update (optimizer st) (params (model st))
                (images, bboxes, gt_masks) (loss_total l)) as [o' p'].
    reflexivity.
  - intros m1 m2 m3 g1 g2 q1 q2 q3 a1 a2 a3 E1 E2.
    split; [reflexivity|].
    unfold batch_losses, zip3. simpl. rewrite E1, E2.
    unfold mse_loss_sum. simpl. field.
Qed.

(** The third part of [loss_iou_and_total] on concrete inputs. *)
Lemma loss_iou_and_total_witness :
  count_masks (H := Toy.components) [[0]; [0; 1]]%Q = 3%nat
  /\ scalar_eq
       (loss_iou (batch_losses (H := Toy.components)
                    [[0]; [0; 1]]%Q [[1]; [0; 0]]%Q
                    [[1 # 2]; [1 # 2; 1 # 4]]%Q))
       (Some ((((1 # 2) - 0) ^ 2 + ((1 # 2) - 1) ^ 2 + ((1 # 4) - 0) ^ 2) / 3)%Q).
Proof.
  apply (proj2 (proj2 (loss_iou_and_total (H := Toy.components)))
           0%Q 0%Q 1%Q [1%Q] [0%Q; 0%Q]); reflexivity.
Defined.

(** C10. The division by [num_masks] is unguarded: dividing by 0 gives a
    non-finite value. For a batch whose loss loop runs at least once,
    [loss_iou] is a finite number exactly when the batch holds at least one
    predicted mask; when it holds none, the kernels receive the divisor 0 and
    [loss_iou] and [loss_total] are not finite. A batch of two images without
    prompts is such a batch. *)
Theorem num_masks_division_unguarded `{Components}
    (pred_masks gt_masks : list (list Mask)) (iou_predictions : list (list Q)) :
  (0 < List.length (zip3 pred_masks gt_masks iou_predictions))%nat ->
  let l := batch_losses pred_masks gt_masks iou_predictions in
  (forall x : scalar, sdiv x 0 = None)
  /\ (is_finite (loss_iou l) = true <-> (1 <= count_masks pred_masks)%nat)
  /\ (count_masks pred_masks = 0%nat ->
      loss_iou l = None /\ loss_total l = None
      /\ scalar_eq (loss_focal l)
           (sum_over_images (fun '(pred_mask, gt_mask, _) =>
                               focal_loss pred_mask gt_mask 0)
              pred_masks gt_masks iou_predictions)
      /\ scalar_eq (loss_dice l)
           (sum_over_images (fun '(pred_mask, gt_mask, _) =>
                               dice_loss pred_mask gt_mask 0)
              pred_masks gt_masks iou_predictions)).
Proof.
  intros Hlen l.
  destruct (batch_losses_sums pred_masks gt_masks iou_predictions)
    as (Hf & Hd & Hi). fold l in Hf, Hd, Hi.
  assert (Hts : zip3 pred_masks gt_masks iou_predictions <> []).
  { intros E. rewrite E in Hlen. simpl in Hlen. lia. }
  assert (Hfin : is_finite (loss_iou l)
                 = negb (Nat.eqb (count_masks pred_masks) 0)).
  { rewrite (is_finite_scalar_eq _ _ Hi). unfold sum_over_images.
    rewrite ssum_finite, forallb_map_eq.
    apply forallb_const; [|exact Hts].
    intros t. apply iou_term_finite. }
  split; [exact sdiv_zero|]. split.
  - rewrite Hfin. destruct (Nat.eqb_spec (count_masks pred_masks) 0); simpl.
    + split; [discriminate | lia].
    + split; [lia | reflexivity].
  - intros H0. rewrite H0 in *. simpl in Hfin.
    assert (Hnone : loss_iou l = None).
    { destruct (loss_iou l); [discriminate | reflexivity]. }
    repeat split.
    + exact Hnone.
    + unfold loss_total. rewrite Hnone.
      destruct (sadd (loss_focal l) (loss_dice l)); reflexivity.
    + exact Hf.
    + exact Hd.
Qed.

(** [num_masks_division_unguarded] on the batch of two images without prompts:
    the loop runs twice, num_masks is 0, and the losses are not finite. *)
Lemma num_masks_division_unguarded_witness :
  let out := forward (Components := Toy.components) true 0%nat [tt; tt] [0%nat; 0%nat] in
  let l := batch_losses (H := Toy.components) (fst out) [[]; []] (snd out) in
  count_masks (H := Toy.components) (fst out) = 0%nat
  /\ loss_iou l = None /\ loss_total l = None.
Proof.
  intros out l. split; [reflexivity|].
  pose proof (num_masks_division_unguarded (H := Toy.components)
                (fst out) [[]; []] (snd out)) as T.
  simpl in T. specialize (T ltac:(lia)).
  destruct T as (_ & _ & T). destruct (T eq_refl) as (T1 & T2 & _).
  split; [exact T1 | exact T2].
Defined.

(** ** The learning-rate schedule *)

Lemma py_div_returns (a b : Q) :
  ~ (b == 0)%Q -> Schedule.returns (Schedule.py_div a b) (a / b)%Q.
Proof.
  intros Hb. unfold Schedule.py_div.
  destruct (Qeq_bool b 0) eqn:E.
  - apply Qeq_bool_iff in E. contradiction.
  - simpl. reflexivity.
Qed.

Lemma inject_Z_nonzero (z : Z) : z <> 0 -> ~ (inject_Z z == 0)%Q.
Proof.
  intros Hz E. apply Hz. unfold Qeq in E. simpl in E. lia.
Qed.

Lemma Qsquare_nonzero (d : Q) : ~ (d == 0)%Q -> ~ (d ^ 2 == 0)%Q.
Proof.
  intros Hd E. apply Hd. simpl in E.
  destruct (Qmult_integral _ _ E); assumption.
Qed.

(** C3 as stated fails when the warmup outlasts the first boundary: with
    warmup_steps = 10, steps = [5, 20] and decay_factor = 10 the hypotheses of
    the claim hold, yet factor(warmup_steps) is 1/10 instead of 1.0,
    factor(steps[0]) is 5/10 instead of 1/10, and at step 7, which lies in
    [steps[0], steps[1]), the factor is 7/10 instead of 1/10. *)
Lemma lr_lambda_warmup_past_first_boundary :
  let o := {| learning_rate := 8 # 10000; weight_decay := 1 # 10;
              warmup_steps := 10; steps := [5; 20]; decay_factor := 10 |} in
  (0 < warmup_steps o /\ steps o = [5; 20] /\ 5 < 20
   /\ ~ (decay_factor o == 0)%Q)
  /\ Schedule.lr_lambda o (warmup_steps o) = Ok (1 / 10)%Q
  /\ ~ Schedule.returns (Schedule.lr_lambda o (warmup_steps o)) 1%Q
  /\ Schedule.lr_lambda o 5 = Ok (inject_Z 5 / inject_Z 10)%Q
  /\ ~ Schedule.returns (Schedule.lr_lambda o 5) (1 / 10)%Q
  /\ Schedule.lr_lambda o 7 = Ok (inject_Z 7 / inject_Z 10)%Q
  /\ ~ Schedule.returns (Schedule.lr_lambda o 7) (1 / 10)%Q.
Proof.
  cbv zeta. repeat split; try (vm_compute; congruence).
Qed.

(** C3, as amended. For a non-negative step and a configuration with
    0 < warmup_steps < steps[0] < steps[1], steps of two elements, and
    decay_factor != 0, [lr_lambda] raises nothing and returns
    step/warmup_steps below warmup_steps (0 at step 0), 1.0 from warmup_steps
    to below steps[0], 1/decay_factor from steps[0] to below steps[1], and
    1/decay_factor^2 from steps[1] on; so factor(warmup_steps) = 1.0,
    factor(steps[0]) = 1/decay_factor, factor(steps[1]) = 1/decay_factor^2. *)
Theorem lr_lambda_piecewise (o : OptCfg) (s0 s1 step : Z) :
  0 <= step ->
  0 < warmup_steps o ->
  steps o = [s0; s1] ->
  warmup_steps o < s0 ->
  s0 < s1 ->
  ~ (decay_factor o == 0)%Q ->
  let f := Schedule.lr_lambda o in
  (step < warmup_steps o ->
   Schedule.returns (f step) (inject_Z step / inject_Z (warmup_steps o))%Q)
  /\ (warmup_steps o <= step < s0 -> Schedule.returns (f step) 1%Q)
  /\ (s0 <= step < s1 -> Schedule.returns (f step) (1 / decay_factor o)%Q)
  /\ (s1 <= step -> Schedule.returns (f step) (1 / decay_factor o ^ 2)%Q)
  /\ Schedule.returns (f 0) 0%Q
  /\ Schedule.returns (f (warmup_steps o)) 1%Q
  /\ Schedule.returns (f s0) (1 / decay_factor o)%Q
  /\ Schedule.returns (f s1) (1 / decay_factor o ^ 2)%Q.
Proof.
  intros Hstep Hw Hsteps Hws0 Hs01 Hd f.
  assert (Hwq : ~ (inject_Z (warmup_steps o) == 0)%Q)
    by (apply inject_Z_nonzero; lia).
  assert (Hd2 : ~ (decay_factor o ^ 2 == 0)%Q) by (apply Qsquare_nonzero, Hd).
  assert (Low : forall x, x < warmup_steps o ->
                Schedule.returns (f x) (inject_Z x / inject_Z (warmup_steps o))%Q).
  { intros x Hx. unfold f, Schedule.lr_lambda.
    destruct (Z.ltb_spec x (warmup_steps o)); [|lia].
    apply py_div_returns, Hwq. }
  assert (Flat : forall x, warmup_steps o <= x < s0 -> Schedule.returns (f x) 1%Q).
  { intros x Hx. unfold f, Schedule.lr_lambda. rewrite Hsteps. simpl.
    destruct (Z.ltb_spec x (warmup_steps o)); [lia|].
    destruct (Z.ltb_spec x s0); [|lia]. simpl. reflexivity. }
  assert (First : forall x, s0 <= x < s1 ->
                  Schedule.returns (f x) (1 / decay_factor o)%Q).
  { intros x Hx. unfold f, Schedule.lr_lambda. rewrite Hsteps. simpl.
    destruct (Z.ltb_spec x (warmup_steps o)); [lia|].
    destruct (Z.ltb_spec x s0); [lia|].
    destruct (Z.ltb_spec x s1); [|lia].
    apply py_div_returns, Hd. }
  assert (Second : forall x, s1 <= x ->
                   Schedule.returns (f x) (1 / decay_factor o ^ 2)%Q).
  { intros x Hx. unfold f, Schedule.lr_lambda. rewrite Hsteps. simpl.
    destruct (Z.ltb_spec x (warmup_steps o)); [lia|].
    destruct (Z.ltb_spec x s0); [lia|].
    destruct (Z.ltb_spec x s1); [lia|].
    apply py_div_returns, Hd2. }
  repeat apply conj.
  - apply Low.
  - apply Flat.
  - apply First.
  - apply Second.
  - specialize (Low 0 Hw). destruct (f 0); simpl in *; [|exact Low].
    rewrite Low. unfold Qdiv. ring.
  - apply Flat. lia.
  - apply First. lia.
  - apply Second. lia.
Qed.

(** [lr_lambda_piecewise] at the schedule of the sample configuration
    (warmup 250, boundaries 60000 and 86666, decay 10), step 300. *)
Lemma lr_lambda_piecewise_witness :
  Schedule.returns (Schedule.lr_lambda Toy.opt_cfg 300) 1%Q
  /\ Schedule.returns (Schedule.lr_lambda Toy.opt_cfg 250) 1%Q
  /\ Schedule.returns (Schedule.lr_lambda Toy.opt_cfg 60000) (1 / 10)%Q
  /\ Schedule.returns (Schedule.lr_lambda Toy.opt_cfg 86666) (1 / 10 ^ 2)%Q.
Proof.
  pose proof (lr_lambda_piecewise Toy.opt_cfg 60000 86666 300
                ltac:(lia) ltac:(simpl; lia) eq_refl ltac:(simpl; lia)
                ltac:(lia) ltac:(vm_compute; discriminate)) as T.
  cbv zeta in T.
  destruct T as (_ & T2 & _ & _ & _ & T6 & T7 & T8).
  repeat apply conj.
  - apply T2. simpl. lia.
  - exact T6.
  - exact T7.
  - exact T8.
Defined.

(** ** The shape of the event lists *)

Arguments train_batch : simpl never.
Arguments train_epoch : simpl never.
Arguments validate_batch : simpl never.
Arguments validate : simpl never.
Arguments save_if_best : simpl never.
Arguments periodic_write : simpl never.

Section TraceFacts.
Context `{Components}.

Lemma for_each_Forall {S X : Type} (P : Event -> Prop)
    (body : S -> X -> S * list Event) :
  (forall s x, Forall P (snd (body s x))) ->
  forall xs s, Forall P (snd (for_each body xs s)).
Proof.
  intros Hbody xs. induction xs as [|x xs IH]; intros s; simpl.
  - constructor.
  - specialize (Hbody s x). destruct (body s x) as [s1 t1].
    specialize (IH s1). destruct (for_each body xs s1) as [s2 t2].
    simpl in *. apply Forall_app. split; assumption.
Qed.

Lemma flat_map_blind {B : Type} (f : Event -> list B) (P : Event -> bool)
    (tr : list Event) :
  (forall e, P e = true -> f e = []) ->
  Forall (fun e => P e = true) tr -> flat_map f tr = [].
Proof.
  intros Hf Htr. induction Htr as [|e tr He _ IH]; simpl; [reflexivity|].
  rewrite (Hf e He), IH. reflexivity.
Qed.

(** A projection of a loop whose iterations project independently of the
    state. *)
Lemma for_each_flat_map {S X B : Type} (f : Event -> list B)
    (body : S -> X -> S * list Event) (g : X -> list B) :
  (forall s x, flat_map f (snd (body s x)) = g x) ->
  forall xs s, flat_map f (snd (for_each body xs s)) = flat_map g xs.
Proof.
  intros Hbody xs. induction xs as [|x xs IH]; intros s; simpl; [reflexivity|].
  specialize (Hbody s x). destruct (body s x) as [s1 t1].
  specialize (IH s1). destruct (for_each body xs s1) as [s2 t2].
  simpl in *. rewrite flat_map_app, Hbody, IH. reflexivity.
Qed.

Lemma validate_pair_events (n : nat) (ms : ValMeters) (p : list Mask * list Mask) :
  snd (validate_pair n ms p) = [EvUpdate MIous n; EvUpdate MF1Scores n].
Proof. destruct ms, p. reflexivity. Qed.

Lemma validate_batch_meter_events (ps : Params) (ms : ValMeters)
    (item : nat * Batch) :
  Forall (fun e => meter_event e = true) (snd (validate_batch ps ms item)).
Proof.
  destruct item as [n [[images bboxes] gt_masks]]. unfold validate_batch.
  destruct (forward false ps images bboxes) as [pred_masks iou_predictions].
  pose proof (for_each_Forall (fun e => meter_event e = true)
                (validate_pair (List.length images))) as L.
  specialize (L ltac:(intros s x; rewrite validate_pair_events;
                      repeat constructor)
                (combine pred_masks gt_masks) ms).
  destruct (for_each (validate_pair (List.length images))
              (combine pred_masks gt_masks) ms) as [ms' t].
  simpl in *. apply Forall_app. split; [exact L | repeat constructor].
Qed.

Lemma validate_loop_meter_events (ps : Params) (vl : list Batch) :
  Forall (fun e => meter_event e = true) (snd (validate_loop ps vl)).
Proof.
  unfold validate_loop. apply for_each_Forall.
  intros s x. apply validate_batch_meter_events.
Qed.

(** [validate] laid out: the model it leaves, the score, and the events. *)
Lemma validate_unfold (r : nat) (m : Model) (cfg : Cfg) (vl : list Batch)
    (epoch : Z) :
  validate r m cfg vl epoch =
  ({| params := params m; training := true |},
   validate_score (params m) vl,
   [EvValidate epoch; EvNewMeter MIous; EvNewMeter MF1Scores]
   ++ snd (validate_loop (params m) vl)
   ++ [EvReadAvg MIous; EvReadAvg MF1Scores]
   ++ periodic_write r cfg (params m) epoch
        (snd (fst (validate_loop (params m) vl)))
   ++ [EvReadAvg MF1Scores; EvValidated epoch (validate_score (params m) vl)]).
Proof.
  unfold validate, validate_score. simpl.
  destruct (validate_loop (params m) vl) as [ms t]. reflexivity.
Qed.

Lemma train_batch_events (epoch : Z) (s : TrainState * EpochMeters)
    (item : nat * Batch) :
  exists total,
    snd (train_batch epoch s item) =
    [EvUpdate MDataTime 1;
     EvBackward epoch (fst item) total;
     EvOptimizerStep epoch (fst item);
     EvUpdate MBatchTime 1;
     EvUpdate MFocalLosses (List.length (fst (fst (snd item))));
     EvUpdate MDiceLosses (List.length (fst (fst (snd item))));
     EvUpdate MIouLosses (List.length (fst (fst (snd item))));
     EvUpdate MTotalLosses (List.length (fst (fst (snd item))));
     EvReadVal MFocalLosses; EvReadVal MDiceLosses;
     EvReadVal MIouLosses; EvReadVal MTotalLosses].
Proof.
  destruct s as [st ms], item as [i [[images bboxes] gt_masks]].
  unfold train_batch.
  destruct (forward (training (model st)) (params (model st)) images bboxes)
    as [pred_masks iou_predictions].
  destruct (optimizer_update _ _ _ _) as [o' p'].
  eexists. reflexivity.
Qed.

(** The training batches leave the scheduler and [best_score] alone. *)
Lemma train_batch_keeps (epoch : Z) (s : TrainState * EpochMeters)
    (item : nat * Batch) :
  let st' := fst (fst (train_batch epoch s item)) in
  scheduler st' = scheduler (fst s) /\ best_score st' = best_score (fst s).
Proof.
  destruct s as [st ms], item as [i [[images bboxes] gt_masks]].
  unfold train_batch.
  destruct (forward (training (model st)) (params (model st)) images bboxes)
    as [pred_masks iou_predictions].
  destruct (optimizer_update _ _ _ _) as [o' p'].
  simpl. split; reflexivity.
Qed.

Lemma train_batches_keeps (epoch : Z) (tl : list Batch) (st : TrainState) :
  let st' := fst (fst (train_batches epoch tl st)) in
  scheduler st' = scheduler st /\ best_score st' = best_score st.
Proof.
  unfold train_batches. cbv zeta.
  generalize (enumerate tl) as items. generalize new_epoch_meters as ms.
  intros ms items. revert st ms.
  induction items as [|item items IH]; intros st ms; simpl.
  - split; reflexivity.
  - pose proof (train_batch_keeps epoch (st, ms) item) as K.
    destruct (train_batch epoch (st, ms) item) as [[st1 ms1] t1].
    specialize (IH st1 ms1).
    destruct (for_each (train_batch epoch) items (st1, ms1)) as [[st2 ms2] t2].
    cbv zeta in K. simpl in *. destruct K as [K1 K2], IH as [I1 I2].
    split; congruence.
Qed.

(** [train_epoch] laid out. *)
Lemma train_epoch_unfold (cfg : Cfg) (r : nat) (tl vl : list Batch)
    (st : TrainState) (epoch : Z) :
  let st1 := fst (fst (train_batches epoch tl st)) in
  let ps := params (model st1) in
  let score := validate_score ps vl in
  let m2 := {| params := ps; training := true |} in
  train_epoch cfg r tl vl st epoch =
  ({| model := m2;
      optimizer := snd (scheduler_step (scheduler st1) (optimizer st1));
      scheduler := fst (scheduler_step (scheduler st1) (optimizer st1));
      best_score := fst (save_if_best cfg epoch score m2 (best_score st1)) |},
   [EvNewMeter MBatchTime; EvNewMeter MDataTime;
    EvNewMeter MFocalLosses; EvNewMeter MDiceLosses;
    EvNewMeter MIouLosses; EvNewMeter MTotalLosses]
   ++ snd (train_batches epoch tl st)
   ++ [EvReadAvg MFocalLosses; EvReadAvg MDiceLosses;
       EvReadAvg MIouLosses; EvReadAvg MTotalLosses]
   ++ snd (validate r (model st1) cfg vl epoch)
   ++ snd (save_if_best cfg epoch score m2 (best_score st1))
   ++ [EvSchedulerStep epoch]).
Proof.
  intros st1 ps score m2. unfold train_epoch.
  subst st1 ps score m2.
  destruct (train_batches epoch tl st) as [[st1 ms1] t1]. simpl.
  rewrite validate_unfold.
  destruct (save_if_best _ _ _ _ _) as [b tb].
  destruct (scheduler_step _ _) as [s' o'].
  reflexivity.
Qed.

End TraceFacts.

(** ** Order of the phases, epochs visited *)

Lemma flat_map_singleton {A B : Type} (f : A -> B) (xs : list A) :
  flat_map (fun x => [f x]) xs = map f xs.
Proof. induction xs as [|x xs IH]; simpl; [reflexivity | now rewrite IH]. Qed.

Lemma flat_map_of_map {A B C : Type} (g : B -> list C) (h : A -> B)
    (xs : list A) :
  flat_map g (map h xs) = flat_map (fun x => g (h x)) xs.
Proof. induction xs as [|x xs IH]; simpl; [reflexivity | now rewrite IH]. Qed.

Lemma flat_map_const_nil {A B : Type} (xs : list A) :
  flat_map (fun _ : A => @nil B) xs = [].
Proof. induction xs as [|x xs IH]; simpl; [reflexivity | exact IH]. Qed.

Lemma map_fst_enumerate {X : Type} (xs : list X) :
  map fst (enumerate xs) = seq 0 (List.length xs).
Proof.
  unfold enumerate. generalize 0%nat as k.
  induction xs as [|x xs IH]; intros k; simpl; [reflexivity|].
  rewrite IH. reflexivity.
Qed.

Lemma py_range_from_1 (n : Z) :
  py_range 1 n = map Z.of_nat (seq 1 (Z.to_nat (n - 1))).
Proof.
  unfold py_range. rewrite <- seq_shift, map_map.
  apply map_ext. intros i. lia.
Qed.

(** Push a projection through the appends and conses of a laid-out event
    list. *)
Ltac unroll :=
  repeat (progress cbn [flat_map app snd fst] || rewrite flat_map_app).

Section PhaseFacts.
Context `{Components}.

(** A projection that sees neither tracker accesses nor the periodic write
    sees of a [validate] call its entry and its return. *)
Lemma validate_projection {B : Type} (f : Event -> list B)
    (r : nat) (m : Model) (cfg : Cfg) (vl : list Batch) (epoch : Z) :
  (forall e, meter_event e = true -> f e = []) ->
  (forall p sd, f (EvSave InValidate p sd) = []) ->
  flat_map f (snd (validate r m cfg vl epoch))
  = f (EvValidate epoch)
    ++ f (EvValidated epoch (validate_score (params m) vl)).
Proof.
  intros Hm Hs. rewrite validate_unfold.
  unfold periodic_write. destruct (Nat.eqb r 0); unroll;
    rewrite (flat_map_blind f meter_event _ Hm (validate_loop_meter_events _ _));
    rewrite ?Hs, ?(Hm (EvNewMeter _) eq_refl), ?(Hm (EvReadAvg _) eq_refl);
    cbn [app]; rewrite ?app_nil_r; reflexivity.
Qed.

Lemma train_batches_projection {B : Type} (f : Event -> list B)
    (epoch : Z) (tl : list Batch) (st : TrainState) :
  (forall e, meter_event e = true -> f e = []) ->
  (forall ep b l, f (EvBackward ep b l) = []) ->
  flat_map f (snd (train_batches epoch tl st))
  = flat_map (fun i => f (EvOptimizerStep epoch i)) (seq 0 (List.length tl)).
Proof.
  intros Hm Hb. unfold train_batches.
  rewrite (for_each_flat_map f (train_batch epoch)
             (fun item => f (EvOptimizerStep epoch (fst item)))).
  - rewrite <- map_fst_enumerate, flat_map_of_map. reflexivity.
  - intros s item. destruct (train_batch_events epoch s item) as [total E].
    rewrite E. unroll.
    rewrite Hb, !(Hm (EvUpdate _ _) eq_refl), !(Hm (EvReadVal _) eq_refl).
    cbn [app]. rewrite app_nil_r. reflexivity.
Qed.

Lemma train_batches_batch_events (epoch : Z) (tl : list Batch) (st : TrainState) :
  Forall (fun e => batch_event e = true) (snd (train_batches epoch tl st)).
Proof.
  unfold train_batches. apply for_each_Forall. intros s item.
  destruct (train_batch_events epoch s item) as [total E]. rewrite E.
  repeat constructor.
Qed.

(** A projection that sees nothing of a training batch. *)
Lemma train_batches_blind {B : Type} (f : Event -> list B)
    (epoch : Z) (tl : list Batch) (st : TrainState) :
  (forall e, batch_event e = true -> f e = []) ->
  flat_map f (snd (train_batches epoch tl st)) = [].
Proof.
  intros Hf. apply (flat_map_blind f batch_event _ Hf).
  apply train_batches_batch_events.
Qed.

Lemma save_if_best_projection {B : Type} (f : Event -> list B)
    (cfg : Cfg) (epoch : Z) (score : Q) (m : Model) (best : Q) :
  (forall p sd, f (EvSave InTrainSam p sd) = []) ->
  flat_map f (snd (save_if_best cfg epoch score m best)) = [].
Proof.
  intros Hs. unfold save_if_best. destruct (Qgtb score best); simpl;
    rewrite ?Hs; reflexivity.
Qed.

Lemma train_epoch_phases (cfg : Cfg) (r : nat) (tl vl : list Batch)
    (st : TrainState) (epoch : Z) :
  phases (snd (train_epoch cfg r tl vl st epoch))
  = epoch_phases (List.length tl) epoch.
Proof.
  rewrite train_epoch_unfold. unfold phases. unroll.
  rewrite train_batches_projection by (intros [] ; try discriminate; reflexivity).
  rewrite validate_projection
    by (try (intros []; try discriminate; reflexivity); reflexivity).
  rewrite save_if_best_projection by reflexivity.
  cbn. rewrite flat_map_singleton, ?app_nil_r. reflexivity.
Qed.

Lemma train_epochs_phases (cfg : Cfg) (r : nat) (tl vl : list Batch)
    (epochs : list Z) (st : TrainState) :
  phases (snd (train_epochs cfg r tl vl epochs st))
  = flat_map (epoch_phases (List.length tl)) epochs.
Proof.
  unfold train_epochs, phases. apply for_each_flat_map.
  intros s e. apply train_epoch_phases.
Qed.

Lemma train_epochs_scheduler_count (count : Sched -> Z)
    (cfg : Cfg) (r : nat) (tl vl : list Batch) :
  (forall s o, count (fst (scheduler_step s o)) = count s + 1) ->
  forall (epochs : list Z) (st : TrainState),
    count (scheduler (fst (train_epochs cfg r tl vl epochs st)))
    = count (scheduler st) + Z.of_nat (List.length epochs).
Proof.
  intros Hc epochs. unfold train_epochs.
  induction epochs as [|e es IH]; intros st; simpl.
  - lia.
  - pose proof (train_epoch_unfold cfg r tl vl st e) as U. cbv zeta in U.
    destruct (train_epoch cfg r tl vl st e) as [st1 t1].
    specialize (IH st1).
    destruct (for_each (train_epoch cfg r tl vl) es st1) as [st2 t2].
    simpl in *. rewrite IH.
    injection U as -> _. simpl. rewrite Hc.
    destruct (train_batches_keeps e tl st) as [K _]. rewrite K. lia.
Qed.

End PhaseFacts.

(** C5. The optimizer steps, validation calls and scheduler steps of a
    training run occur epoch by epoch in this order: the optimizer steps of
    all the epoch's batches, then the validation call, then one scheduler
    step. So the scheduler is stepped once per epoch: any step count it keeps
    (one that each [step()] advances by one) has advanced, at the end, by the
    number of epochs run, whatever the number of batches. *)
Theorem validation_between_batches_and_scheduler `{Components}
    (cfg : Cfg) (r : nat) (m : Model) (o : Optim) (s : Sched)
    (tl vl : list Batch) :
  let run := train_sam cfg r m o s tl vl in
  let epochs := py_range 1 (num_epochs cfg) in
  phases (snd run) = flat_map (epoch_phases (List.length tl)) epochs
  /\ List.length epochs = Z.to_nat (num_epochs cfg - 1)
  /\ forall count : Sched -> Z,
       (forall s' o', count (fst (scheduler_step s' o')) = count s' + 1) ->
       count (scheduler (fst run)) = count s + Z.of_nat (List.length epochs).
Proof.
  intros run epochs. split; [|split].
  - apply train_epochs_phases.
  - apply py_range_length.
  - intros count Hc. unfold run, train_sam.
    rewrite (train_epochs_scheduler_count count cfg r tl vl Hc). reflexivity.
Qed.

(** [validation_between_batches_and_scheduler] on a run of four epochs over
    two batches each: eight optimizer steps, and the scheduler's
    [last_epoch] ends at 4. *)
Lemma validation_between_batches_and_scheduler_witness :
  let run := train_sam (H := Toy.components) Toy.cfg 1 Toy.model0 0%nat
               Toy.sched0 [Toy.batch1; Toy.batch12] [Toy.batch1] in
  phases (snd run)
  = flat_map (epoch_phases 2) [1; 2; 3; 4]
  /\ Schedule.last_epoch (scheduler (fst run)) = 4.
Proof.
  intros run.
  destruct (validation_between_batches_and_scheduler (H := Toy.components)
              Toy.cfg 1 Toy.model0 0%nat Toy.sched0
              [Toy.batch1; Toy.batch12] [Toy.batch1]) as (P & _ & C).
  split.
  - exact P.
  - exact (C Schedule.last_epoch (fun s' o' => eq_refl)).
Defined.

Lemma train_epochs_validate_calls `{Components} (cfg : Cfg) (r : nat)
    (tl vl : list Batch) (epochs : list Z) (st : TrainState) :
  validate_calls (snd (train_epochs cfg r tl vl epochs st)) = epochs.
Proof.
  unfold train_epochs, validate_calls.
  rewrite (for_each_flat_map validate_call_of _ (fun e => [e])).
  - rewrite flat_map_singleton. apply map_id.
  - intros s e. rewrite train_epoch_unfold. unroll.
    rewrite train_batches_projection
      by (try (intros []; try discriminate; reflexivity); reflexivity).
    rewrite validate_projection
      by (try (intros []; try discriminate; reflexivity); reflexivity).
    rewrite save_if_best_projection by reflexivity.
    cbn. rewrite flat_map_const_nil. reflexivity.
Qed.

(** C8. The training loop runs its body for the epochs 1, 2, ...,
    num_epochs - 1, in this order, each exactly once: [validate] is called
    with exactly these labels. When num_epochs <= 1 the body never runs:
    the run leaves the model, optimizer and scheduler as they were and
    produces no event (no validation, no scheduler step). *)
Theorem epochs_one_to_num_epochs_exclusive `{Components}
    (cfg : Cfg) (r : nat) (m : Model) (o : Optim) (s : Sched)
    (tl vl : list Batch) :
  let run := train_sam cfg r m o s tl vl in
  validate_calls (snd run)
  = map Z.of_nat (seq 1 (Z.to_nat (num_epochs cfg - 1)))
  /\ (forall e, In e (validate_calls (snd run)) <-> 1 <= e < num_epochs cfg)
  /\ phases (snd run)
     = flat_map (epoch_phases (List.length tl))
         (map Z.of_nat (seq 1 (Z.to_nat (num_epochs cfg - 1))))
  /\ (num_epochs cfg <= 1 ->
      run = ({| model := m; optimizer := o; scheduler := s;
                best_score := 0%Q |}, [])).
Proof.
  intros run.
  assert (E : validate_calls (snd run) = py_range 1 (num_epochs cfg)).
  { unfold run, train_sam. apply train_epochs_validate_calls. }
  repeat apply conj.
  - rewrite E. apply py_range_from_1.
  - intros e. rewrite E. apply py_range_In.
  - unfold run, train_sam. rewrite <- py_range_from_1.
    apply train_epochs_phases.
  - intros Hn. unfold run, train_sam.
    rewrite py_range_empty by lia. reflexivity.
Qed.

(** [epochs_one_to_num_epochs_exclusive] with num_epochs = 5, and with
    num_epochs = 1. *)
Lemma epochs_one_to_num_epochs_exclusive_witness :
  validate_calls
    (snd (train_sam (H := Toy.components) Toy.cfg 0 Toy.model0 0%nat
            Toy.sched0 [Toy.batch1] [Toy.batch1]))
  = [1; 2; 3; 4]
  /\ train_sam (H := Toy.components)
       {| num_epochs := 1; num_devices := 1; out_dir := "out";
          opt := Toy.opt_cfg |}
       0 Toy.model0 0%nat Toy.sched0 [Toy.batch1] [Toy.batch1]
     = ({| model := Toy.model0; optimizer := 0%nat;
           scheduler := Toy.sched0; best_score := 0%Q |}, []).
Proof.
  split.
  - exact (proj1 (epochs_one_to_num_epochs_exclusive (H := Toy.components)
                    Toy.cfg 0 Toy.model0 0%nat Toy.sched0
                    [Toy.batch1] [Toy.batch1])).
  - apply (proj2 (proj2 (proj2
             (epochs_one_to_num_epochs_exclusive (H := Toy.components)
                {| num_epochs := 1; num_devices := 1; out_dir := "out";
                   opt := Toy.opt_cfg |}
                0 Toy.model0 0%nat Toy.sched0 [Toy.batch1] [Toy.batch1])))).
    simpl. lia.
Defined.

(** ** Best-score gating *)

Lemma Qgtb_lt (x y : Q) : Qgtb x y = true <-> (y < x)%Q.
Proof.
  unfold Qgtb. destruct (Qle_bool x y) eqn:E; simpl.
  - apply Qle_bool_iff in E. split; [discriminate | intros L; lra].
  - split; [intros _ | reflexivity].
    destruct (Qlt_le_dec y x) as [L | L]; [exact L|].
    apply Qle_bool_iff in L. congruence.
Qed.

Lemma Qgtb_le (x y : Q) : Qgtb x y = false <-> (x <= y)%Q.
Proof.
  unfold Qgtb. destruct (Qle_bool x y) eqn:E; simpl.
  - apply Qle_bool_iff in E. tauto.
  - split; [discriminate|]. intros L. apply Qle_bool_iff in L. congruence.
Qed.

(** Exceeding the old best and the new score is exceeding the new best. *)
Lemma Qgtb_new_best (x s best : Q) :
  (Qgtb x best && Qgtb x s)%bool = Qgtb x (if Qgtb s best then s else best).
Proof.
  destruct (Qgtb s best) eqn:Es;
    destruct (Qgtb x best) eqn:Eb; destruct (Qgtb x s) eqn:Ex;
    try reflexivity; exfalso;
    rewrite ?Qgtb_lt, ?Qgtb_le in *; lra.
Qed.

Lemma save_if_best_spec `{Components} (cfg : Cfg) (epoch : Z) (score : Q)
    (m : Model) (best : Q) :
  fst (save_if_best cfg epoch score m best)
  = (if Qgtb score best then score else best)
  /\ saved InTrainSam (snd (save_if_best cfg epoch score m best))
     = (if Qgtb score best then [best_path cfg (epoch, score)] else [])
  /\ writes (snd (save_if_best cfg epoch score m best))
     = (if Qgtb score best
        then [(InTrainSam, best_path cfg (epoch, score), state_dict (params m))]
        else []).
Proof.
  unfold save_if_best. destruct (Qgtb score best); repeat split; reflexivity.
Qed.

Section BestFacts.
Context `{Components}.

(** The score of an epoch: the mean F1 of the parameters its training batches
    leave. *)
Lemma train_epoch_validated (cfg : Cfg) (r : nat) (tl vl : list Batch)
    (st : TrainState) (epoch : Z) :
  validated (snd (train_epoch cfg r tl vl st epoch))
  = [(epoch,
      validate_score
        (params (model (fst (fst (train_batches epoch tl st))))) vl)].
Proof.
  rewrite train_epoch_unfold. unfold validated. unroll.
  rewrite train_batches_projection
    by (try (intros []; try discriminate; reflexivity); reflexivity).
  rewrite validate_projection
    by (try (intros []; try discriminate; reflexivity); reflexivity).
  rewrite save_if_best_projection by reflexivity.
  cbn. rewrite flat_map_const_nil. reflexivity.
Qed.

Lemma train_epoch_best (cfg : Cfg) (r : nat) (tl vl : list Batch)
    (st : TrainState) (epoch : Z) :
  let score := validate_score
                 (params (model (fst (fst (train_batches epoch tl st))))) vl in
  best_score (fst (train_epoch cfg r tl vl st epoch))
  = (if Qgtb score (best_score st) then score else best_score st)
  /\ saved InTrainSam (snd (train_epoch cfg r tl vl st epoch))
     = (if Qgtb score (best_score st)
        then [best_path cfg (epoch, score)] else []).
Proof.
  intros score. rewrite train_epoch_unfold.
  destruct (train_batches_keeps epoch tl st) as [_ Kb].
  cbn [fst snd best_score]. fold score. rewrite Kb.
  split.
  - apply save_if_best_spec.
  - unfold saved. unroll.
    rewrite train_batches_projection
      by (try (intros []; try discriminate; reflexivity); reflexivity).
    rewrite validate_projection
      by (try (intros []; try discriminate; reflexivity); reflexivity).
    cbn. rewrite flat_map_const_nil, app_nil_r. cbn.
    apply save_if_best_spec.
Qed.

Lemma train_epochs_best (cfg : Cfg) (r : nat) (tl vl : list Batch)
    (epochs : list Z) :
  forall (st : TrainState) (prior : list Q),
    (forall x, forallb (fun p => Qgtb x p) prior = Qgtb x (best_score st)) ->
    let run := train_epochs cfg r tl vl epochs st in
    saved InTrainSam (snd run)
    = map (best_path cfg) (record_breakers_from prior (validated (snd run))).
Proof.
  unfold train_epochs.
  induction epochs as [|e es IH]; intros st prior Hinv; cbn [for_each].
  - reflexivity.
  - pose proof (train_epoch_validated cfg r tl vl st e) as V.
    pose proof (train_epoch_best cfg r tl vl st e) as [B S]. 
    destruct (train_epoch cfg r tl vl st e) as [st1 t1].
    set (score := validate_score _ vl) in *.
    specialize (IH st1 (prior ++ [score])).
    destruct (for_each (train_epoch cfg r tl vl) es st1) as [st2 t2].
    cbn [fst snd] in *.
    unfold saved, validated in *. rewrite !flat_map_app, V, S.
    cbn [app record_breakers_from]. rewrite Hinv, map_app.
    rewrite IH.
    + destruct (Qgtb score (best_score st)); reflexivity.
    + intros x. rewrite forallb_app, Hinv, B. cbn [forallb].
      rewrite andb_true_r. apply Qgtb_new_best.
Qed.

Lemma train_epochs_best_monotone (cfg : Cfg) (r : nat) (tl vl : list Batch)
    (epochs : list Z) :
  forall st : TrainState,
    (best_score st
     <= best_score (fst (train_epochs cfg r tl vl epochs st)))%Q.
Proof.
  unfold train_epochs.
  induction epochs as [|e es IH]; intros st; cbn [for_each].
  - cbn. lra.
  - pose proof (train_epoch_best cfg r tl vl st e) as [B _].
    destruct (train_epoch cfg r tl vl st e) as [st1 t1].
    specialize (IH st1).
    destruct (for_each (train_epoch cfg r tl vl) es st1) as [st2 t2].
    cbn [fst snd] in *.
    apply Qle_trans with (best_score st1); [|exact IH].
    rewrite B. destruct (Qgtb _ (best_score st)) eqn:E.
    + apply Qgtb_lt in E. lra.
    + lra.
Qed.

End BestFacts.

(** C4. [train_sam] starts [best_score] at 0. The best checkpoints written
    during a run are, in order, those of the epochs whose validation score is
    strictly above 0 and above the score of every earlier epoch of the run.
    In each epoch [best_score] becomes the epoch's score when that score is
    strictly above it, and stays otherwise, and the write happens in exactly
    the first case; so [best_score] never decreases. For the scores
    0.3, 0.5, 0.4, 0.6 the epochs that write are the first, second and
    fourth. *)
Theorem best_checkpoint_gating `{Components}
    (cfg : Cfg) (r : nat) (m : Model) (o : Optim) (s : Sched)
    (tl vl : list Batch) :
  let run := train_sam cfg r m o s tl vl in
  run = train_epochs cfg r tl vl (py_range 1 (num_epochs cfg))
          {| model := m; optimizer := o; scheduler := s; best_score := 0%Q |}
  /\ saved InTrainSam (snd run)
     = map (best_path cfg) (record_breakers (validated (snd run)))
  /\ (forall (st : TrainState) (epoch : Z),
         let step := train_epoch cfg r tl vl st epoch in
         exists score,
           validated (snd step) = [(epoch, score)]
           /\ best_score (fst step)
              = (if Qgtb score (best_score st) then score else best_score st)
           /\ saved InTrainSam (snd step)
              = (if Qgtb score (best_score st)
                 then [best_path cfg (epoch, score)] else []))
  /\ (forall (epochs : list Z) (st : TrainState),
         (best_score st
          <= best_score (fst (train_epochs cfg r tl vl epochs st)))%Q)
  /\ record_breakers
       [(1, 3 # 10 : Q); (2, 5 # 10 : Q); (3, 4 # 10 : Q); (4, 6 # 10 : Q)]
     = [(1, 3 # 10 : Q); (2, 5 # 10 : Q); (4, 6 # 10 : Q)].
Proof.
  intros run. repeat apply conj.
  - reflexivity.
  - unfold run, train_sam, record_breakers. apply train_epochs_best.
    intros x. cbn. apply andb_true_r.
  - intros st epoch step. eexists. split; [apply train_epoch_validated|].
    apply train_epoch_best.
  - intros epochs st. apply train_epochs_best_monotone.
  - reflexivity.
Qed.

(** A run whose four epochs score 0.3, 0.5, 0.4 and 0.6, on a process of
    rank 1: best checkpoints are written for the epochs 1, 2 and 4. *)
Example best_checkpoint_run :
  let run := train_sam (H := Toy.components) Toy.cfg 1 Toy.model0 0%nat
               Toy.sched0 [Toy.batch1] [Toy.batch1] in
  validated (snd run)
  = [(1, 3 # 10 : Q); (2, 5 # 10 : Q); (3, 4 # 10 : Q); (4, 6 # 10 : Q)]
  /\ saved InTrainSam (snd run)
     = ["out/training/best-epoch-1-f10.30.pth";
        "out/training/best-epoch-2-f10.50.pth";
        "out/training/best-epoch-4-f10.60.pth"]%string
  /\ saved InValidate (snd run) = []
  /\ best_score (fst run) = (6 # 10)%Q.
Proof. vm_compute. repeat split. Qed.

(** ** Checkpoint writes: rank gate, names, contents *)

Section WriteFacts.
Context `{Components}.

Lemma for_each_flat_map_Forall {S X B : Type} (f : Event -> list B)
    (P : B -> Prop) (body : S -> X -> S * list Event) :
  (forall s x, Forall P (flat_map f (snd (body s x)))) ->
  forall xs s, Forall P (flat_map f (snd (for_each body xs s))).
Proof.
  intros Hbody xs. induction xs as [|x xs IH]; intros s; cbn [for_each].
  - constructor.
  - specialize (Hbody s x). destruct (body s x) as [s1 t1].
    specialize (IH s1). destruct (for_each body xs s1) as [s2 t2].
    cbn [snd] in *. rewrite flat_map_app. apply Forall_app. split; assumption.
Qed.

(** The writes of one [validate] call. *)
Lemma validate_writes (r : nat) (m : Model) (cfg : Cfg) (vl : list Batch)
    (epoch : Z) :
  writes (snd (validate r m cfg vl epoch))
  = (if Nat.eqb r 0
     then [(InValidate,
            periodic_path cfg (epoch, validate_score (params m) vl),
            state_dict (params m))]
     else []).
Proof.
  rewrite validate_unfold. unfold writes, periodic_write.
  destruct (Nat.eqb r 0); unroll;
    rewrite (flat_map_blind writes_of meter_event _
               ltac:(intros []; try discriminate; reflexivity)
               (validate_loop_meter_events _ _));
    reflexivity.
Qed.

(** The writes of one epoch: the periodic one of [validate], then the best
    one when the score improves. *)
Lemma train_epoch_writes (cfg : Cfg) (r : nat) (tl vl : list Batch)
    (st : TrainState) (epoch : Z) :
  let ps := params (model (fst (fst (train_batches epoch tl st)))) in
  let score := validate_score ps vl in
  writes (snd (train_epoch cfg r tl vl st epoch))
  = (if Nat.eqb r 0
     then [(InValidate, periodic_path cfg (epoch, score), state_dict ps)]
     else [])
    ++ (if Qgtb score (best_score st)
        then [(InTrainSam, best_path cfg (epoch, score), state_dict ps)]
        else []).
Proof.
  intros ps score. rewrite train_epoch_unfold.
  destruct (train_batches_keeps epoch tl st) as [_ Kb].
  unfold writes. unroll.
  rewrite train_batches_blind by (intros []; try discriminate; reflexivity).
  cbn [app].
  change (flat_map writes_of) with writes.
  rewrite validate_writes. fold ps. fold score. rewrite Kb.
  cbn [writes_of app]. rewrite app_nil_r.
  f_equal. apply save_if_best_spec.
Qed.

(** What a projection blind to the gated statements sees does not depend on
    the rank. *)
Lemma validate_rank_blind {B : Type} (f : Event -> list B) (r r' : nat)
    (m : Model) (cfg : Cfg) (vl : list Batch) (epoch : Z) :
  (forall mt, f (EvReadAvg mt) = []) ->
  (forall p sd, f (EvSave InValidate p sd) = []) ->
  flat_map f (snd (validate r m cfg vl epoch))
  = flat_map f (snd (validate r' m cfg vl epoch)).
Proof.
  intros Hr Hs. rewrite !validate_unfold. unfold periodic_write.
  destruct (Nat.eqb r 0), (Nat.eqb r' 0); unroll; rewrite ?Hr, ?Hs;
    reflexivity.
Qed.

Lemma train_epoch_rank_blind {B : Type} (f : Event -> list B) (r r' : nat)
    (cfg : Cfg) (tl vl : list Batch) (st : TrainState) (epoch : Z) :
  (forall mt, f (EvReadAvg mt) = []) ->
  (forall p sd, f (EvSave InValidate p sd) = []) ->
  fst (train_epoch cfg r tl vl st epoch)
  = fst (train_epoch cfg r' tl vl st epoch)
  /\ flat_map f (snd (train_epoch cfg r tl vl st epoch))
     = flat_map f (snd (train_epoch cfg r' tl vl st epoch)).
Proof.
  intros Hr Hs. rewrite !train_epoch_unfold. split; [reflexivity|].
  unroll. rewrite (validate_rank_blind f r r') by assumption. reflexivity.
Qed.

Lemma train_epochs_rank_blind {B : Type} (f : Event -> list B) (r r' : nat)
    (cfg : Cfg) (tl vl : list Batch) (epochs : list Z) :
  (forall mt, f (EvReadAvg mt) = []) ->
  (forall p sd, f (EvSave InValidate p sd) = []) ->
  forall st : TrainState,
    fst (train_epochs cfg r tl vl epochs st)
    = fst (train_epochs cfg r' tl vl epochs st)
    /\ flat_map f (snd (train_epochs cfg r tl vl epochs st))
       = flat_map f (snd (train_epochs cfg r' tl vl epochs st)).
Proof.
  intros Hr Hs. unfold train_epochs.
  induction epochs as [|e es IH]; intros st; cbn [for_each].
  - split; reflexivity.
  - destruct (train_epoch_rank_blind f r r' cfg tl vl st e Hr Hs) as [E1 E2].
    destruct (train_epoch cfg r tl vl st e) as [st1 t1].
    destruct (train_epoch cfg r' tl vl st e) as [st1' t1'].
    cbn [fst snd] in E1, E2. subst st1'.
    specialize (IH st1).
    destruct (for_each (train_epoch cfg r tl vl) es st1) as [st2 t2].
    destruct (for_each (train_epoch cfg r' tl vl) es st1) as [st2' t2'].
    cbn [fst snd] in *. destruct IH as [I1 I2].
    split; [exact I1|]. rewrite !flat_map_app. congruence.
Qed.

(** The periodic checkpoints of a run: one per validation on rank 0, none on
    the other ranks. *)
Lemma train_epochs_periodic (cfg : Cfg) (r : nat) (tl vl : list Batch)
    (epochs : list Z) :
  forall st : TrainState,
    let tr := snd (train_epochs cfg r tl vl epochs st) in
    saved InValidate tr
    = (if Nat.eqb r 0 then map (periodic_path cfg) (validated tr) else []).
Proof.
  unfold train_epochs.
  induction epochs as [|e es IH]; intros st; cbn [for_each].
  - cbn. destruct (Nat.eqb r 0); reflexivity.
  - pose proof (train_epoch_validated cfg r tl vl st e) as V.
    pose proof (train_epoch_writes cfg r tl vl st e) as W.
    destruct (train_epoch cfg r tl vl st e) as [st1 t1].
    specialize (IH st1).
    destruct (for_each (train_epoch cfg r tl vl) es st1) as [st2 t2].
    cbn [fst snd] in *.
    assert (S1 : saved InValidate t1
                 = flat_map (fun w => match w with
                                      | (InValidate, p, _) => [p]
                                      | _ => []
                                      end) (writes t1)).
    { clear. unfold saved, writes. induction t1 as [|ev t1 IH]; [reflexivity|].
      cbn [flat_map]. rewrite flat_map_app, <- IH.
      destruct ev as [| | | | | | | | |[] p sd|]; reflexivity. }
    unfold saved, validated in *. rewrite !flat_map_app, IH, S1, W, V.
    destruct (Nat.eqb r 0); destruct (Qgtb _ (best_score st)); reflexivity.
Qed.

End WriteFacts.

(** C6. The periodic checkpoint write of [validate] happens on the process of
    global rank 0 only, once per call; a process of any other rank writes no
    periodic checkpoint, yet runs the same validation: it updates the same
    trackers with the same weights, obtains the same scores and ends in the
    same state as rank 0 would on the same data. The best-checkpoint write
    of the training loop has no rank gate: on every rank it happens for the
    epochs whose score passes the comparison with [best_score]. *)
Theorem checkpoint_rank_gating `{Components}
    (cfg : Cfg) (r : nat) (m : Model) (o : Optim) (s : Sched)
    (tl vl : list Batch) :
  let run := train_sam cfg r m o s tl vl in
  let run0 := train_sam cfg 0 m o s tl vl in
  (forall (m' : Model) (epoch : Z),
      let v := validate r m' cfg vl epoch in
      let v0 := validate 0 m' cfg vl epoch in
      saved InValidate (snd v)
      = (if Nat.eqb r 0
         then [periodic_path cfg (epoch, snd (fst v))] else [])
      /\ fst v = fst v0
      /\ updates (snd v) = updates (snd v0))
  /\ saved InValidate (snd run)
     = (if Nat.eqb r 0
        then map (periodic_path cfg) (validated (snd run)) else [])
  /\ fst run = fst run0
  /\ updates (snd run) = updates (snd run0)
  /\ validated (snd run) = validated (snd run0)
  /\ saved InTrainSam (snd run) = saved InTrainSam (snd run0)
  /\ saved InTrainSam (snd run)
     = map (best_path cfg) (record_breakers (validated (snd run))).
Proof.
  intros run run0. repeat apply conj.
  - intros m' epoch v v0. repeat apply conj.
    + unfold v. rewrite validate_unfold. cbn [fst snd].
      unfold saved, periodic_write.
      destruct (Nat.eqb r 0); unroll;
        rewrite (flat_map_blind (saved_of InValidate) meter_event _
                   ltac:(intros []; try discriminate; reflexivity)
                   (validate_loop_meter_events _ _));
        reflexivity.
    + unfold v, v0. rewrite !validate_unfold. reflexivity.
    + apply validate_rank_blind; reflexivity.
  - apply train_epochs_periodic.
  - apply (train_epochs_rank_blind updates_of); reflexivity.
  - apply (train_epochs_rank_blind updates_of); reflexivity.
  - apply (train_epochs_rank_blind validated_of); reflexivity.
  - apply (train_epochs_rank_blind (saved_of InTrainSam)); reflexivity.
  - unfold run, train_sam, record_breakers. apply train_epochs_best.
    intros x. cbn. apply andb_true_r.
Qed.

(** The same run on rank 0 and on rank 1: both write the best checkpoints,
    only rank 0 the periodic ones. *)
Example checkpoint_rank_gating_run :
  let run r := snd (train_sam (H := Toy.components) Toy.cfg r Toy.model0
                      0%nat Toy.sched0 [Toy.batch1] [Toy.batch1]) in
  saved InValidate (run 0%nat)
  = ["out/training/epoch-000001-f10.30-ckpt.pth";
     "out/training/epoch-000002-f10.50-ckpt.pth";
     "out/training/epoch-000003-f10.40-ckpt.pth";
     "out/training/epoch-000004-f10.60-ckpt.pth"]%string
  /\ saved InValidate (run 1%nat) = []
  /\ saved InTrainSam (run 0%nat) = saved InTrainSam (run 1%nat)
  /\ List.length (saved InTrainSam (run 1%nat)) = 3%nat.
Proof. vm_compute. repeat split. Qed.

Section NameFacts.
Context `{Components}.

Lemma validate_writes_shaped (r : nat) (m : Model) (cfg : Cfg)
    (vl : list Batch) (epoch : Z) :
  Forall (checkpoint_shaped cfg) (writes (snd (validate r m cfg vl epoch))).
Proof.
  rewrite validate_writes. destruct (Nat.eqb r 0); repeat constructor.
  eexists _, _, _. left. reflexivity.
Qed.

Lemma train_sam_writes_shaped (cfg : Cfg) (r : nat) (m : Model) (o : Optim)
    (s : Sched) (tl vl : list Batch) :
  Forall (checkpoint_shaped cfg) (writes (snd (train_sam cfg r m o s tl vl))).
Proof.
  unfold train_sam, train_epochs, writes.
  apply for_each_flat_map_Forall. intros st e.
  change (flat_map writes_of) with writes.
  rewrite train_epoch_writes. apply Forall_app. split.
  - destruct (Nat.eqb r 0); repeat constructor.
    eexists _, _, _. left. reflexivity.
  - destruct (Qgtb _ _); repeat constructor.
    eexists _, _, _. right. reflexivity.
Qed.

End NameFacts.

Lemma format_06d_nat (n : nat) :
  Fmt.format_06d (Z.of_nat n)
  = (Fmt.zeros (6 - String.length (Fmt.format_d (Z.of_nat n)))
     ++ Fmt.format_d (Z.of_nat n))%string.
Proof.
  unfold Fmt.format_06d, Fmt.format_d, Fmt.zfill.
  destruct (Z.ltb_spec (Z.of_nat n) 0); [lia | reflexivity].
Qed.

(** C7. Every file [validate] writes is
    [out_dir/epoch-{epoch:06d}-f1{score:.2f}-ckpt.pth] for the epoch label it
    was called with and the mean F1 it returns; every file the training loop
    writes is [out_dir/best-epoch-{epoch}-f1{score:.2f}.pth] for its epoch
    and that epoch's score. The epoch is padded with zeros to six digits in
    the first name only, the score has two decimals in both. What is written
    is [model.model.state_dict()] of the model as it is at that point, in
    both cases, and nothing else; this holds for every write of a whole run,
    final validation included. *)
Theorem checkpoint_names_and_contents `{Components} (cfg : Cfg) (r : nat) :
  (forall (m : Model) (vl : list Batch) (epoch : Z),
      let v := validate r m cfg vl epoch in
      writes (snd v)
      = (if Nat.eqb r 0
         then [(InValidate,
                Fmt.os_path_join (out_dir cfg)
                  ("epoch-" ++ Fmt.format_06d epoch ++ "-f1"
                   ++ Fmt.format_2f (snd (fst v)) ++ "-ckpt.pth")%string,
                state_dict (params m))]
         else []))
  /\ (forall (tl vl : list Batch) (st : TrainState) (epoch : Z),
         let step := train_epoch cfg r tl vl st epoch in
         exists score,
           validated (snd step) = [(epoch, score)]
           /\ saved InTrainSam (snd step)
              = (if Qgtb score (best_score st)
                 then [Fmt.os_path_join (out_dir cfg)
                         ("best-epoch-" ++ Fmt.format_d epoch ++ "-f1"
                          ++ Fmt.format_2f score ++ ".pth")%string]
                 else [])
           /\ writes (snd step)
              = (if Nat.eqb r 0
                 then [(InValidate, periodic_path cfg (epoch, score),
                        state_dict (params (model (fst step))))]
                 else [])
                ++ (if Qgtb score (best_score st)
                    then [(InTrainSam, best_path cfg (epoch, score),
                           state_dict (params (model (fst step))))]
                    else []))
  /\ (forall (m : Model) (o : Optim) (s : Sched) (tl vl : list Batch),
         Forall (checkpoint_shaped cfg) (writes (run cfg r m o s tl vl)))
  /\ (forall n : nat,
         Fmt.format_06d (Z.of_nat n)
         = (Fmt.zeros (6 - String.length (Fmt.format_d (Z.of_nat n)))
            ++ Fmt.format_d (Z.of_nat n))%string)
  /\ Fmt.periodic_name 7 (8567 # 10000) = "epoch-000007-f10.86-ckpt.pth"%string
  /\ Fmt.best_name 7 (8567 # 10000) = "best-epoch-7-f10.86.pth"%string
  /\ Fmt.periodic_name 0 0 = "epoch-000000-f10.00-ckpt.pth"%string
  /\ Fmt.best_name 1234567 1 = "best-epoch-1234567-f11.00.pth"%string
  /\ Fmt.periodic_name 1234567 (1 # 8) = "epoch-1234567-f10.12-ckpt.pth"%string.
Proof.
  repeat apply conj; try reflexivity.
  - intros m vl epoch v. unfold v. rewrite validate_writes.
    rewrite validate_unfold. reflexivity.
  - intros tl vl st epoch step. eexists.
    split; [apply train_epoch_validated|]. split.
    + apply train_epoch_best.
    + unfold step. rewrite train_epoch_writes.
      rewrite train_epoch_unfold. reflexivity.
  - intros m o s tl vl. unfold run.
    pose proof (train_sam_writes_shaped cfg r m o s tl vl) as T.
    destruct (train_sam cfg r m o s tl vl) as [st t_train].
    pose proof (validate_writes_shaped r (model st) cfg vl 0) as V.
    destruct (validate r (model st) cfg vl 0) as [[m' sc] t_val].
    cbn [snd] in *. unfold writes in *. rewrite !flat_map_app.
    repeat (apply Forall_app; split); try assumption.
    destruct (Nat.eqb r 0); constructor.
  - exact format_06d_nat.
Qed.

(** ** Reads of the running averages *)



Section ReadFacts.
Context `{Components}.









End ReadFacts.




(** * Further properties *)

(** ** The learning-rate schedule: errors, reads, bounds *)



Lemma inject_Z_zero_iff (z : Z) : (inject_Z z == 0)%Q <-> z = 0.
Proof. unfold Qeq. simpl. lia. Qed.



(** X2. What [lr_lambda] reads. During the warmup it reads warmup_steps only:
    two configurations with the same warmup_steps give the same result,
    whatever their steps and decay_factor. At any step the result depends on
    warmup_steps, decay_factor and the first two elements of steps only. *)
Theorem lr_lambda_reads (o o' : OptCfg) (step : Z) :
  warmup_steps o = warmup_steps o' ->
  (step < warmup_steps o ->
   Schedule.lr_lambda o step = Schedule.lr_lambda o' step)
  /\ (firstn 2 (steps o) = firstn 2 (steps o') ->
      decay_factor o = decay_factor o' ->
      Schedule.lr_lambda o step = Schedule.lr_lambda o' step).
Proof.
  intros Ew. unfold Schedule.lr_lambda. rewrite <- Ew. split.
  - intros Hs. destruct (Z.ltb_spec step (warmup_steps o)); [reflexivity | lia].
  - intros Es Ed. rewrite <- Ed.
    destruct (step <? warmup_steps o); [reflexivity|].
    destruct (steps o) as [|a [|b r]], (steps o') as [|a' [|b' r']];
      cbn [firstn] in Es; try discriminate; try reflexivity;
      injection Es as <-; subst; reflexivity.
Qed.

(** [lr_lambda_reads] on the sample schedule: at step 100, below the warmup
    of 250, an empty steps list and a zero decay_factor change nothing; at
    step 70000 a third boundary changes nothing. *)
Lemma lr_lambda_reads_witness :
  Schedule.lr_lambda Toy.opt_cfg 100
  = Schedule.lr_lambda
      {| learning_rate := 1; weight_decay := 0; warmup_steps := 250;
         steps := []; decay_factor := 0 |} 100
  /\ Schedule.lr_lambda Toy.opt_cfg 70000
     = Schedule.lr_lambda
         {| learning_rate := 1; weight_decay := 0; warmup_steps := 250;
            steps := [60000; 86666; 90000]; decay_factor := 10 |} 70000.
Proof.
  split.
  - apply (proj1 (lr_lambda_reads Toy.opt_cfg
                    {| learning_rate := 1; weight_decay := 0;
                       warmup_steps := 250; steps := [];
                       decay_factor := 0 |} 100 eq_refl)).
    simpl. lia.
  - apply (proj2 (lr_lambda_reads Toy.opt_cfg
                    {| learning_rate := 1; weight_decay := 0;
                       warmup_steps := 250; steps := [60000; 86666; 90000];
                       decay_factor := 10 |} 70000 eq_refl));
      reflexivity.
Defined.

Lemma inject_Z_pos (b : Z) : 0 < b -> (0 < inject_Z b)%Q.
Proof. intros Hb. unfold Qlt. simpl. lia. Qed.

Lemma inject_Z_le (a b : Z) : a <= b -> (inject_Z a <= inject_Z b)%Q.
Proof. intros Hab. unfold Qle. simpl. lia. Qed.


Lemma inject_Z_ratio_mono (a b w : Z) :
  a <= b -> 0 < w -> (inject_Z a / inject_Z w <= inject_Z b / inject_Z w)%Q.
Proof.
  intros Hab Hw.
  pose proof (inject_Z_pos w Hw) as Hwq.
  pose proof (inject_Z_le a b Hab) as Habq.
  apply Qle_shift_div_l; [exact Hwq|].
  unfold Qdiv. rewrite <- Qmult_assoc, (Qmult_comm (/ _)), Qmult_inv_r, Qmult_1_r.
  - exact Habq.
  - intros E. rewrite E in Hwq. apply (Qlt_irrefl 0). exact Hwq.
Qed.

Lemma Qinv_bounds (d : Q) : (1 <= d)%Q -> (0 <= 1 / d /\ 1 / d <= 1)%Q.
Proof.
  intros Hd. assert (Hp : (0 < d)%Q) by lra. split.
  - apply Qle_shift_div_l; [exact Hp | lra].
  - apply Qle_shift_div_r; [exact Hp | lra].
Qed.

Lemma Qsquare_ge_1 (d : Q) : (1 <= d)%Q -> (d <= d ^ 2)%Q.
Proof. intros Hd. simpl. nra. Qed.

Lemma Qinv_antitone (a b : Q) : (0 < a)%Q -> (a <= b)%Q -> (1 / b <= 1 / a)%Q.
Proof.
  intros Ha Hab. assert (Hb : (0 < b)%Q) by lra.
  apply Qle_shift_div_l; [exact Ha|].
  setoid_replace (1 / b * a)%Q with (a / b)%Q
    by (field; intros E; rewrite E in Hb; exact (Qlt_irrefl 0 Hb)).
  apply Qle_shift_div_r; [exact Hb | lra].
Qed.



(** X4. The shape of the schedule. With warmup_steps > 0 the factor does not
    decrease from one step to a later one while both are below warmup_steps;
    with at least two elements in steps and decay_factor >= 1 it does not
    increase from one step to a later one once both are past the warmup. *)
Theorem lr_lambda_up_then_down (o : OptCfg) (a b : Z) :
  a <= b ->
  (0 < warmup_steps o -> b < warmup_steps o ->
   exists qa qb,
     Schedule.lr_lambda o a = Ok qa /\ Schedule.lr_lambda o b = Ok qb
     /\ (qa <= qb)%Q)
  /\ (forall s0 s1 rest,
         steps o = s0 :: s1 :: rest -> (1 <= decay_factor o)%Q ->
         warmup_steps o <= a ->
         exists qa qb,
           Schedule.lr_lambda o a = Ok qa /\ Schedule.lr_lambda o b = Ok qb
           /\ (qb <= qa)%Q).
Proof.
  intros Hab. split.
  - intros Hw Hb. unfold Schedule.lr_lambda.
    destruct (Z.ltb_spec a (warmup_steps o)); [|lia].
    destruct (Z.ltb_spec b (warmup_steps o)); [|lia].
    unfold Schedule.py_div.
    destruct (Qeq_bool (inject_Z (warmup_steps o)) 0) eqn:E.
    + apply Qeq_bool_iff in E. rewrite inject_Z_zero_iff in E. lia.
    + eexists _, _. repeat split. apply inject_Z_ratio_mono; lia.
  - intros s0 s1 rest Hsteps Hd Ha.
    assert (Hd2 : (decay_factor o <= decay_factor o ^ 2)%Q)
      by (apply Qsquare_ge_1, Hd).
    assert (N1 : Qeq_bool (decay_factor o) 0 = false).
    { destruct (Qeq_bool (decay_factor o) 0) eqn:E; [|reflexivity].
      apply Qeq_bool_iff in E. lra. }
    assert (N2 : Qeq_bool (decay_factor o ^ 2) 0 = false).
    { destruct (Qeq_bool (decay_factor o ^ 2) 0) eqn:E; [|reflexivity].
      apply Qeq_bool_iff in E. lra. }
    pose proof (Qinv_bounds _ Hd) as [B1 B2].
    assert (B1' : (0 <= 1 / decay_factor o ^ 2 /\ 1 / decay_factor o ^ 2 <= 1)%Q)
      by (apply Qinv_bounds; lra).
    assert (B3 : (1 / decay_factor o ^ 2 <= 1 / decay_factor o)%Q)
      by (apply Qinv_antitone; lra).
    unfold Schedule.lr_lambda. rewrite Hsteps.
    cbn [Schedule.py_index nth_error].
    destruct (Z.ltb_spec a (warmup_steps o)); [lia|].
    destruct (Z.ltb_spec b (warmup_steps o)); [lia|].
    unfold Schedule.py_div. rewrite N1, N2.
    destruct (Z.ltb_spec a s0), (Z.ltb_spec b s0),
             (Z.ltb_spec a s1), (Z.ltb_spec b s1);
      try lia; eexists _, _; (split; [reflexivity|]);
      (split; [reflexivity|]); lra.
Qed.

(** [lr_lambda_up_then_down] on the sample schedule: steps 100 and 200 of the
    warmup, steps 70000 and 90000 of the decay. *)
Lemma lr_lambda_up_then_down_witness :
  (exists qa qb,
      Schedule.lr_lambda Toy.opt_cfg 100 = Ok qa
      /\ Schedule.lr_lambda Toy.opt_cfg 200 = Ok qb /\ (qa <= qb)%Q)
  /\ (exists qa qb,
         Schedule.lr_lambda Toy.opt_cfg 70000 = Ok qa
         /\ Schedule.lr_lambda Toy.opt_cfg 90000 = Ok qb /\ (qb <= qa)%Q).
Proof.
  split.
  - apply (proj1 (lr_lambda_up_then_down Toy.opt_cfg 100 200 ltac:(lia)));
      simpl; lia.
  - apply (proj2 (lr_lambda_up_then_down Toy.opt_cfg 70000 90000 ltac:(lia))
             60000 86666 []).
    + reflexivity.
    + vm_compute. discriminate.
    + simpl. lia.
Defined.

(** ** The per-batch loss: mismatched lists, exact predictions *)

Lemma combine_app_short {A B : Type} (xs extra : list A) (ys : list B) :
  (List.length ys <= List.length xs)%nat ->
  combine (xs ++ extra) ys = combine xs ys.
Proof.
  revert ys. induction xs as [|x xs IH]; intros ys Hlen.
  - destruct ys; [|simpl in Hlen; lia]. destruct extra; reflexivity.
  - destruct ys as [|y ys]; [reflexivity|].
    simpl in *. rewrite IH by lia. reflexivity.
Qed.

Lemma count_masks_app `{Components} (xs ys : list (list Mask)) :
  count_masks (xs ++ ys) = (count_masks xs + count_masks ys)%nat.
Proof. unfold count_masks. rewrite map_app, list_sum_app. reflexivity. Qed.

(** X5. When the model returns more per-image predictions than there are
    ground-truth entries, [zip] drops the surplus predictions from the loss
    terms, yet their masks still count in [num_masks]: the losses are the
    sums over the images kept, normalised by the masks of all predictions.
    With no ground-truth entry at all the three losses are exactly 0. *)
Theorem surplus_predictions_still_normalise `{Components}
    (pred_masks extra gt_masks : list (list Mask))
    (iou_predictions : list (list Q)) :
  (List.length gt_masks <= List.length pred_masks)%nat ->
  let n := (count_masks pred_masks + count_masks extra)%nat in
  let l := batch_losses (pred_masks ++ extra) gt_masks iou_predictions in
  scalar_eq (loss_focal l)
    (sum_over_images (focal_term n) pred_masks gt_masks iou_predictions)
  /\ scalar_eq (loss_dice l)
       (sum_over_images (dice_term n) pred_masks gt_masks iou_predictions)
  /\ scalar_eq (loss_iou l)
       (sum_over_images (iou_term n) pred_masks gt_masks iou_predictions)
  /\ (gt_masks = [] ->
      l = {| loss_focal := Some 0%Q; loss_dice := Some 0%Q;
             loss_iou := Some 0%Q |}).
Proof.
  intros Hlen n l.
  destruct (batch_losses_sums (pred_masks ++ extra) gt_masks iou_predictions)
    as (Hf & Hd & Hi).
  fold l in Hf, Hd, Hi. rewrite count_masks_app in Hf, Hd, Hi. fold n in Hf, Hd, Hi.
  unfold sum_over_images, zip3 in *.
  rewrite (combine_app_short pred_masks extra gt_masks Hlen) in Hf, Hd, Hi.
  repeat apply conj; try assumption.
  intros ->. unfold l, batch_losses, zip3.
  destruct (pred_masks ++ extra); reflexivity.
Qed.

(** [surplus_predictions_still_normalise] with two predictions of one and two
    masks against one ground-truth entry: the only focal term is divided
    by 3. *)
Lemma surplus_predictions_still_normalise_witness :
  scalar_eq
    (loss_focal (batch_losses (H := Toy.components)
                   ([[0%Q]] ++ [[0%Q; 0%Q]]) [[1%Q]] [[1 # 2]; [1 # 2; 1 # 2]]))
    (Some (1 # 3)%Q).
Proof.
  destruct (surplus_predictions_still_normalise (H := Toy.components)
              [[0%Q]] [[0%Q; 0%Q]] [[1%Q]] [[1 # 2]; [1 # 2; 1 # 2]]
              ltac:(simpl; lia)) as (Hf & _).
  etransitivity; [exact Hf|]. vm_compute. reflexivity.
Defined.

Lemma Qsquare_nonneg (a : Q) : (0 <= a * a)%Q.
Proof. destruct a as [n d]. unfold Qle, Qmult. simpl. nia. Qed.

Lemma mse_loss_sum_nonneg (xs ys : list Q) : (0 <= mse_loss_sum xs ys)%Q.
Proof.
  unfold mse_loss_sum, qsum.
  induction (combine xs ys) as [|[x y] ps IH]; simpl in *.
  - lra.
  - pose proof (Qsquare_nonneg (x - y)). lra.
Qed.

Lemma mse_loss_sum_same (xs : list Q) : (mse_loss_sum xs xs == 0)%Q.
Proof.
  unfold mse_loss_sum, qsum. induction xs as [|x xs IH]; simpl in *.
  - reflexivity.
  - rewrite IH. ring.
Qed.

Lemma ssum_nonneg (xs : list scalar) :
  Forall (fun x => forall v, x = Some v -> (0 <= v)%Q) xs ->
  forall q, ssum xs = Some q -> (0 <= q)%Q.
Proof.
  induction 1 as [|x xs Hx _ IH]; intros q E.
  - injection E as <-. lra.
  - unfold ssum in *. simpl in E.
    destruct x as [v|]; [|discriminate].
    destruct (fold_right sadd (Some 0%Q) xs) as [w|]; [|discriminate].
    injection E as <-. specialize (Hx v eq_refl). specialize (IH w eq_refl). lra.
Qed.

Lemma ssum_zero (xs : list scalar) :
  Forall (fun x => scalar_eq x (Some 0%Q)) xs -> scalar_eq (ssum xs) (Some 0%Q).
Proof.
  induction 1 as [|x xs Hx _ IH]; [reflexivity|].
  unfold ssum in *. simpl. rewrite Hx, IH. simpl. ring.
Qed.

(** X6. The IoU-regression loss of a batch is never negative when it is
    finite; and when the batch holds at least one predicted mask and every
    image's quality predictions equal the IoUs [calc_iou] computes for it,
    the loss is 0. *)
Theorem loss_iou_nonneg_and_zero `{Components}
    (pred_masks gt_masks : list (list Mask)) (iou_predictions : list (list Q)) :
  let l := batch_losses pred_masks gt_masks iou_predictions in
  (forall q, loss_iou l = Some q -> (0 <= q)%Q)
  /\ ((1 <= count_masks pred_masks)%nat ->
      Forall (fun t : list Mask * list Mask * list Q =>
                snd t = calc_iou (fst (fst t)) (snd (fst t)))
        (zip3 pred_masks gt_masks iou_predictions) ->
      scalar_eq (loss_iou l) (Some 0%Q)).
Proof.
  intros l.
  destruct (batch_losses_sums pred_masks gt_masks iou_predictions)
    as (_ & _ & Hi). fold l in Hi. unfold sum_over_images in Hi.
  split.
  - intros q E. rewrite E in Hi.
    destruct (ssum _) as [q'|] eqn:E'; [|contradiction].
    simpl in Hi. rewrite Hi. apply (ssum_nonneg _) with (q := q') in E';
      [exact E'|].
    apply Forall_map, Forall_forall. intros [[p g] ip] _ v Ev. simpl in Ev.
    destruct (Nat.eqb_spec (count_masks pred_masks) 0) as [|NZ];
      [discriminate|].
    injection Ev as <-.
    pose proof (mse_loss_sum_nonneg ip (calc_iou p g)) as M.
    apply Qle_shift_div_l; [|lra].
    apply inject_Z_pos. lia.
  - intros Hn Hall. etransitivity; [exact Hi|]. apply ssum_zero.
    apply Forall_map. revert Hall. apply Forall_impl.
    intros [[p g] ip] E. simpl in E. subst ip. simpl.
    destruct (Nat.eqb_spec (count_masks pred_masks) 0); [lia|].
    simpl. rewrite mse_loss_sum_same. unfold Qdiv. ring.
Qed.

(** [loss_iou_nonneg_and_zero] on a batch of two images whose quality
    predictions are exactly the IoUs. *)
Lemma loss_iou_nonneg_and_zero_witness :
  scalar_eq
    (loss_iou (batch_losses (H := Toy.components)
                 [[1%Q]; [1%Q; 0%Q]] [[1%Q]; [1%Q; 1%Q]]
                 [[1%Q]; [1%Q; 0%Q]]))
    (Some 0%Q).
Proof.
  apply (proj2 (loss_iou_nonneg_and_zero (H := Toy.components)
                  [[1%Q]; [1%Q; 0%Q]] [[1%Q]; [1%Q; 1%Q]]
                  [[1%Q]; [1%Q; 0%Q]])).
  - vm_compute. lia.
  - repeat constructor.
Defined.

(** ** Validation: the weights of the tracker updates *)

Section ValidateWeights.
Context `{Components}.

Lemma flat_map_repeat {A B : Type} (xs : list A) (w : B) :
  flat_map (fun _ : A => [w]) xs = repeat w (List.length xs).
Proof. induction xs as [|x xs IH]; simpl; [reflexivity | now rewrite IH]. Qed.

Lemma validate_batch_weights (m : Meter) (ps : Params) (ms : ValMeters)
    (item : nat * Batch) :
  m = MIous \/ m = MF1Scores ->
  flat_map (weight_of m) (snd (validate_batch ps ms item))
  = repeat (batch_images (snd item)) (List.length (val_pairs ps (snd item))).
Proof.
  intros Hm. destruct item as [n [[images bboxes] gt_masks]].
  unfold validate_batch, val_pairs, batch_images. cbn [fst snd].
  destruct (forward false ps images bboxes) as [pred_masks iou_predictions].
  cbn [fst].
  pose proof (for_each_flat_map (weight_of m)
                (validate_pair (List.length images))
                (fun _ => [List.length images])) as L.
  specialize (L ltac:(intros s x; rewrite validate_pair_events;
                      destruct Hm; subst m; reflexivity)
                (combine pred_masks gt_masks) ms).
  destruct (for_each (validate_pair (List.length images))
              (combine pred_masks gt_masks) ms) as [ms' t].
  cbn [snd] in *. rewrite flat_map_app, L.
  rewrite flat_map_repeat.
  destruct Hm; subst m; cbn; apply app_nil_r.
Qed.

End ValidateWeights.

Lemma list_sum_repeat (w k : nat) : list_sum (repeat w k) = (k * w)%nat.
Proof. induction k as [|k IH]; simpl; [reflexivity | now rewrite IH]. Qed.

(** X7. In [validate] each (predicted, ground-truth) pair of a batch updates
    the IoU tracker and the F1 tracker once, with the number of images of
    its batch as weight (not with weight 1): the weights given to either
    tracker are, batch after batch, the batch's image count repeated once
    per pair, and they sum to the sum over the batches of pairs times
    images. The rank and the epoch label play no part. *)
Theorem validate_update_weights `{Components}
    (r : nat) (m : Model) (cfg : Cfg) (vl : list Batch) (epoch : Z)
    (mt : Meter) :
  mt = MIous \/ mt = MF1Scores ->
  let ws := flat_map (weight_of mt) (snd (validate r m cfg vl epoch)) in
  ws = flat_map (fun b => repeat (batch_images b)
                            (List.length (val_pairs (params m) b))) vl
  /\ list_sum ws
     = list_sum (map (fun b => (List.length (val_pairs (params m) b)
                               * batch_images b)%nat) vl).
Proof.
  intros Hm ws.
  assert (E : ws = flat_map (fun b => repeat (batch_images b)
                          (List.length (val_pairs (params m) b))) vl).
  { unfold ws. rewrite validate_unfold. unfold periodic_write.
    assert (L : flat_map (weight_of mt) (snd (validate_loop (params m) vl))
                = flat_map (fun b => repeat (batch_images b)
                              (List.length (val_pairs (params m) b))) vl).
    { unfold validate_loop.
      rewrite (for_each_flat_map (weight_of mt) (validate_batch (params m))
                 (fun item => repeat (batch_images (snd item))
                                (List.length (val_pairs (params m) (snd item))))).
      - unfold enumerate. generalize 0%nat as k.
        induction vl as [|b vl' IH]; intros k; [reflexivity|].
        cbn [List.length seq combine flat_map snd]. rewrite IH. reflexivity.
      - intros s item. apply validate_batch_weights, Hm. }
    destruct (Nat.eqb r 0); unroll; rewrite L; cbn; apply app_nil_r. }
  split; [exact E|]. rewrite E. clear.
  induction vl as [|b vl IH]; [reflexivity|].
  cbn [flat_map map list_sum]. rewrite list_sum_app, IH, list_sum_repeat.
  reflexivity.
Qed.

(** [validate_update_weights] on one batch of two images with one pair each:
    two updates, each of weight 2. *)
Lemma validate_update_weights_witness :
  flat_map (weight_of (H := Toy.components) MF1Scores)
    (snd (validate (H := Toy.components) 1 Toy.model0 Toy.cfg [Toy.batch12] 3))
  = [2%nat; 2%nat].
Proof.
  exact (proj1 (validate_update_weights (H := Toy.components) 1 Toy.model0
                  Toy.cfg [Toy.batch12] 3 MF1Scores (or_intror eq_refl))).
Defined.

(** ** The training loop: what validation cannot influence *)

Section Trajectory.
Context `{Components}.

Lemma train_batch_same (epoch : Z) (st st' : TrainState) (ms : EpochMeters)
    (item : nat * Batch) :
  model st = model st' -> optimizer st = optimizer st' ->
  scheduler st = scheduler st' ->
  let s1 := train_batch epoch (st, ms) item in
  let s1' := train_batch epoch (st', ms) item in
  model (fst (fst s1)) = model (fst (fst s1'))
  /\ optimizer (fst (fst s1)) = optimizer (fst (fst s1'))
  /\ scheduler (fst (fst s1)) = scheduler (fst (fst s1'))
  /\ snd (fst s1) = snd (fst s1')
  /\ snd s1 = snd s1'.
Proof.
  intros Em Eo Es. destruct item as [i [[images bboxes] gt_masks]].
  unfold train_batch. rewrite <- Em, <- Eo, <- Es.
  destruct (forward (training (model st)) (params (model st)) images bboxes)
    as [pred_masks iou_predictions].
  destruct (optimizer_update _ _ _ _) as [o' p'].
  cbn. repeat split; reflexivity.
Qed.

Lemma train_batches_same (epoch : Z) (tl : list Batch) (st st' : TrainState) :
  model st = model st' -> optimizer st = optimizer st' ->
  scheduler st = scheduler st' ->
  let s1 := train_batches epoch tl st in
  let s1' := train_batches epoch tl st' in
  model (fst (fst s1)) = model (fst (fst s1'))
  /\ optimizer (fst (fst s1)) = optimizer (fst (fst s1'))
  /\ scheduler (fst (fst s1)) = scheduler (fst (fst s1'))
  /\ snd s1 = snd s1'.
Proof.
  unfold train_batches. cbv zeta.
  generalize (enumerate tl) as items. generalize new_epoch_meters as ms.
  intros ms items. revert st st' ms.
  induction items as [|item items IH]; intros st st' ms Em Eo Es;
    cbn [for_each].
  - cbn. repeat split; assumption.
  - pose proof (train_batch_same epoch st st' ms item Em Eo Es) as B.
    cbv zeta in B.
    destruct (train_batch epoch (st, ms) item) as [[st1 ms1] t1].
    destruct (train_batch epoch (st', ms) item) as [[st1' ms1'] t1'].
    cbn [fst snd] in B. destruct B as (Bm & Bo & Bs & Bms & Bt). subst ms1' t1'.
    specialize (IH st1 st1' ms1 Bm Bo Bs).
    destruct (for_each (train_batch epoch) items (st1, ms1)) as [[st2 ms2] t2].
    destruct (for_each (train_batch epoch) items (st1', ms1))
      as [[st2' ms2'] t2'].
    cbn [fst snd] in *. destruct IH as (Im & Io & Is & It).
    repeat split; congruence.
Qed.

Lemma train_epochs_same (cfg cfg' : Cfg) (r r' : nat) (tl vl vl' : list Batch)
    (epochs : list Z) :
  forall st st' : TrainState,
    model st = model st' -> optimizer st = optimizer st' ->
    scheduler st = scheduler st' ->
    let run := train_epochs cfg r tl vl epochs st in
    let run' := train_epochs cfg' r' tl vl' epochs st' in
    model (fst run) = model (fst run')
    /\ optimizer (fst run) = optimizer (fst run')
    /\ scheduler (fst run) = scheduler (fst run')
    /\ flat_map backward_of (snd run) = flat_map backward_of (snd run').
Proof.
  unfold train_epochs. cbv zeta.
  induction epochs as [|e es IH]; intros st st' Em Eo Es; cbn [for_each].
  - cbn. repeat split; assumption.
  - pose proof (train_epoch_unfold cfg r tl vl st e) as U.
    pose proof (train_epoch_unfold cfg' r' tl vl' st' e) as U'.
    cbv zeta in U, U'.
    destruct (train_batches_same e tl st st' Em Eo Es) as (Bm & Bo & Bs & Bt).
    destruct (train_epoch cfg r tl vl st e) as [st1 t1].
    destruct (train_epoch cfg' r' tl vl' st' e) as [st1' t1'].
    injection U as U1 U2. injection U' as U1' U2'.
    assert (Em1 : model st1 = model st1') by (subst st1 st1'; cbn; congruence).
    assert (Eo1 : optimizer st1 = optimizer st1')
      by (subst st1 st1'; cbn; congruence).
    assert (Es1 : scheduler st1 = scheduler st1')
      by (subst st1 st1'; cbn; congruence).
    assert (Et1 : flat_map backward_of t1 = flat_map backward_of t1').
    { subst t1 t1'. unroll.
      rewrite !validate_projection
        by (try (intros []; try discriminate; reflexivity); reflexivity).
      rewrite !save_if_best_projection by reflexivity.
      rewrite Bt. reflexivity. }
    specialize (IH st1 st1' Em1 Eo1 Es1).
    destruct (for_each (train_epoch cfg r tl vl) es st1) as [st2 t2].
    destruct (for_each (train_epoch cfg' r' tl vl') es st1') as [st2' t2'].
    cbn [fst snd] in *. destruct IH as (Im & Io & Is & It).
    repeat split; try assumption. rewrite !flat_map_app. congruence.
Qed.

End Trajectory.

(** X8. Validation and checkpointing never influence training. Two runs of
    [train_sam] from the same model, optimizer and scheduler over the same
    training batches, with the same num_epochs, end with the same model,
    optimizer and scheduler and hand the same losses to the backward passes,
    whatever their validation data, ranks and output directories. Only
    [best_score] and the files written can differ. *)
Theorem training_ignores_validation `{Components}
    (cfg cfg' : Cfg) (r r' : nat) (m : Model) (o : Optim) (s : Sched)
    (tl vl vl' : list Batch) :
  num_epochs cfg = num_epochs cfg' ->
  let run := train_sam cfg r m o s tl vl in
  let run' := train_sam cfg' r' m o s tl vl' in
  model (fst run) = model (fst run')
  /\ optimizer (fst run) = optimizer (fst run')
  /\ scheduler (fst run) = scheduler (fst run')
  /\ flat_map backward_of (snd run) = flat_map backward_of (snd run').
Proof.
  intros En. unfold train_sam. rewrite <- En.
  apply train_epochs_same; reflexivity.
Qed.

(** [training_ignores_validation] on two runs, one validating on a batch and
    writing to "out/training" on rank 0, the other validating on nothing and
    writing to "tmp" on rank 1. *)
Lemma training_ignores_validation_witness :
  let cfg' := {| num_epochs := 5; num_devices := 1; out_dir := "tmp";
                 opt := Toy.opt_cfg |} in
  model (fst (train_sam (H := Toy.components) Toy.cfg 0 Toy.model0 0%nat
                Toy.sched0 [Toy.batch1] [Toy.batch1]))
  = model (fst (train_sam (H := Toy.components) cfg' 1 Toy.model0 0%nat
                  Toy.sched0 [Toy.batch1] [])).
Proof.
  intros cfg'.
  exact (proj1 (training_ignores_validation (H := Toy.components)
                  Toy.cfg cfg' 0 1 Toy.model0 0%nat Toy.sched0
                  [Toy.batch1] [Toy.batch1] [] eq_refl)).
Defined.

(** ** The training loop: the final best score *)

Lemma train_epochs_best_is_max `{Components} (cfg : Cfg) (r : nat)
    (tl vl : list Batch) (epochs : list Z) :
  forall st : TrainState,
    let run := train_epochs cfg r tl vl epochs st in
    let scores := map snd (validated (snd run)) in
    Forall (fun sc => (sc <= best_score (fst run))%Q) scores
    /\ (best_score (fst run) = best_score st
        \/ In (best_score (fst run)) scores).
Proof.
  induction epochs as [|e es IH]; intros st; cbv zeta.
  - cbn. split; [constructor | left; reflexivity].
  - pose proof (train_epochs_best_monotone cfg r tl vl es) as Mono.
    unfold train_epochs in *. cbn [for_each].
    pose proof (train_epoch_validated cfg r tl vl st e) as V.
    pose proof (train_epoch_best cfg r tl vl st e) as [B _].
    destruct (train_epoch cfg r tl vl st e) as [st1 t1].
    specialize (IH st1). specialize (Mono st1). cbv zeta in IH.
    destruct (for_each (train_epoch cfg r tl vl) es st1) as [st2 t2].
    cbn [fst snd] in *. destruct IH as [IHa IHb].
    unfold validated in *. rewrite flat_map_app, V. cbn [app map snd].
    set (score := validate_score _ vl) in *.
    split.
    + constructor; [|exact IHa].
      apply Qle_trans with (best_score st1); [|exact Mono].
      rewrite B. destruct (Qgtb score (best_score st)) eqn:G.
      * lra.
      * apply Qgtb_le in G. exact G.
    + destruct IHb as [E | I].
      * rewrite E, B. destruct (Qgtb score (best_score st)).
        -- right. left. reflexivity.
        -- left. reflexivity.
      * right. right. exact I.
Qed.

(** X9. At the end of [train_sam], [best_score] is the maximum of 0 and the
    validation scores of the run: it is at least 0, at least every epoch's
    score, and it is either 0 or the score of one of the epochs. *)
Theorem final_best_score_is_max `{Components}
    (cfg : Cfg) (r : nat) (m : Model) (o : Optim) (s : Sched)
    (tl vl : list Batch) :
  let run := train_sam cfg r m o s tl vl in
  let scores := map snd (validated (snd run)) in
  (0 <= best_score (fst run))%Q
  /\ Forall (fun sc => (sc <= best_score (fst run))%Q) scores
  /\ (best_score (fst run) = 0%Q \/ In (best_score (fst run)) scores).
Proof.
  intros run scores. unfold run, scores, train_sam.
  split; [|apply train_epochs_best_is_max].
  apply (train_epochs_best_monotone cfg r tl vl (py_range 1 (num_epochs cfg))
           {| model := m; optimizer := o; scheduler := s; best_score := 0%Q |}).
Qed.

(** ** Backward passes and optimizer steps *)

Lemma train_epochs_grad `{Components} (cfg : Cfg) (r : nat)
    (tl vl : list Batch) (epochs : list Z) (st : TrainState) :
  flat_map grad_of (snd (train_epochs cfg r tl vl epochs st))
  = flat_map (fun e => flat_map (fun i => [GBackward e i; GStep e i])
                         (seq 0 (List.length tl))) epochs.
Proof.
  unfold train_epochs. apply for_each_flat_map. intros s e.
  rewrite train_epoch_unfold. unroll.
  rewrite validate_projection
    by (try (intros []; try discriminate; reflexivity); reflexivity).
  rewrite save_if_best_projection by reflexivity.
  cbn [grad_of app]. rewrite !app_nil_r.
  unfold train_batches.
  rewrite (for_each_flat_map grad_of (train_batch e)
             (fun item => [GBackward e (fst item); GStep e (fst item)])).
  - rewrite <- map_fst_enumerate, flat_map_of_map. reflexivity.
  - intros s' item. destruct (train_batch_events e s' item) as [total E].
    rewrite E. reflexivity.
Qed.

(** X10. In a training run every optimizer step comes directly after a
    backward pass of the same epoch and batch, and every backward pass is
    followed by its optimizer step: the two alternate, batch by batch in
    loader order, epoch by epoch, so a run makes (number of epochs) times
    (number of training batches) optimizer steps. *)
Theorem backward_then_step `{Components}
    (cfg : Cfg) (r : nat) (m : Model) (o : Optim) (s : Sched)
    (tl vl : list Batch) :
  let gs := flat_map grad_of (snd (train_sam cfg r m o s tl vl)) in
  gs = flat_map (fun e => flat_map (fun i => [GBackward e i; GStep e i])
                            (seq 0 (List.length tl)))
         (py_range 1 (num_epochs cfg))
  /\ List.length gs
     = (2 * (Z.to_nat (num_epochs cfg - 1) * List.length tl))%nat.
Proof.
  intros gs.
  assert (E : gs = flat_map (fun e => flat_map
                                (fun i => [GBackward e i; GStep e i])
                                (seq 0 (List.length tl)))
                     (py_range 1 (num_epochs cfg))).
  { apply train_epochs_grad. }
  split; [exact E|]. rewrite E, <- (py_range_length 1 (num_epochs cfg)).
  generalize (py_range 1 (num_epochs cfg)) as es. clear.
  assert (L : forall (e : Z) (k n : nat),
             List.length (flat_map (fun i => [GBackward e i; GStep e i])
                            (seq k n)) = (2 * n)%nat).
  { intros e k n. revert k. induction n as [|n IH]; intros k; [reflexivity|].
    cbn [seq flat_map app List.length]. rewrite IH. lia. }
  induction es as [|e es IH]; [reflexivity|].
  cbn [flat_map List.length]. rewrite length_app, L, IH. lia.
Qed.

(** ** [run]: directory, validations, periodic checkpoints *)

Section RunFacts.
Context `{Components}.

Lemma run_unfold (cfg : Cfg) (r : nat) (m : Model) (o : Optim) (s : Sched)
    (tl vl : list Batch) :
  run cfg r m o s tl vl
  = (if Nat.eqb r 0 then [EvMakedirs (out_dir cfg)] else [])
    ++ snd (train_sam cfg r m o s tl vl)
    ++ snd (validate r (model (fst (train_sam cfg r m o s tl vl))) cfg vl 0).
Proof.
  unfold run. destruct (train_sam cfg r m o s tl vl) as [st t].
  cbn [fst snd]. destruct (validate r (model st) cfg vl 0) as [[m' sc] tv].
  reflexivity.
Qed.

Lemma train_sam_makedirs (cfg : Cfg) (r : nat) (m : Model) (o : Optim)
    (s : Sched) (tl vl : list Batch) :
  flat_map makedirs_of (snd (train_sam cfg r m o s tl vl)) = [].
Proof.
  unfold train_sam, train_epochs.
  rewrite (for_each_flat_map makedirs_of _ (fun _ => [])).
  - apply flat_map_const_nil.
  - intros st e. rewrite train_epoch_unfold. unroll.
    rewrite train_batches_blind by (intros []; try discriminate; reflexivity).
    rewrite validate_projection
      by (try (intros []; try discriminate; reflexivity); reflexivity).
    rewrite save_if_best_projection by reflexivity.
    reflexivity.
Qed.

Lemma validate_validated (r : nat) (m : Model) (cfg : Cfg) (vl : list Batch)
    (epoch : Z) :
  validated (snd (validate r m cfg vl epoch))
  = [(epoch, validate_score (params m) vl)].
Proof.
  unfold validated.
  rewrite validate_projection
    by (try (intros []; try discriminate; reflexivity); reflexivity).
  reflexivity.
Qed.

Lemma train_epochs_validated_epochs (cfg : Cfg) (r : nat) (tl vl : list Batch)
    (epochs : list Z) (st : TrainState) :
  map fst (validated (snd (train_epochs cfg r tl vl epochs st))) = epochs.
Proof.
  unfold train_epochs. revert st.
  induction epochs as [|e es IH]; intros st; cbn [for_each]; [reflexivity|].
  pose proof (train_epoch_validated cfg r tl vl st e) as V.
  destruct (train_epoch cfg r tl vl st e) as [st1 t1].
  specialize (IH st1).
  destruct (for_each (train_epoch cfg r tl vl) es st1) as [st2 t2].
  cbn [snd] in *. unfold validated in *.
  rewrite flat_map_app, map_app, V, IH. reflexivity.
Qed.

End RunFacts.

(** X11. [run] creates the output directory on rank 0 only, and there before
    any other event; it validates once per epoch with the labels
    1, ..., num_epochs - 1 and then once more with the label 0. On rank 0
    each of these validations writes its periodic checkpoint, the last one
    under the label 0; on any other rank no directory is created and no
    periodic checkpoint is written. *)
Theorem run_directory_and_validations `{Components}
    (cfg : Cfg) (r : nat) (m : Model) (o : Optim) (s : Sched)
    (tl vl : list Batch) :
  let tr := run cfg r m o s tl vl in
  flat_map makedirs_of tr = (if Nat.eqb r 0 then [out_dir cfg] else [])
  /\ (r = 0%nat -> hd_error tr = Some (EvMakedirs (out_dir cfg)))
  /\ map fst (validated tr) = py_range 1 (num_epochs cfg) ++ [0]
  /\ saved InValidate tr
     = (if Nat.eqb r 0 then map (periodic_path cfg) (validated tr) else [])
  /\ List.length (validated tr) = S (Z.to_nat (num_epochs cfg - 1)).
Proof.
  intros tr. unfold tr. rewrite run_unfold.
  set (run1 := train_sam cfg r m o s tl vl).
  assert (V : map fst (validated
                         ((if Nat.eqb r 0 then [EvMakedirs (out_dir cfg)] else [])
                          ++ snd run1
                          ++ snd (validate r (model (fst run1)) cfg vl 0)))
              = py_range 1 (num_epochs cfg) ++ [0]).
  { unfold validated. rewrite !flat_map_app, !map_app.
    change (flat_map validated_of) with validated.
    rewrite validate_validated. unfold run1, train_sam.
    rewrite train_epochs_validated_epochs.
    destruct (Nat.eqb r 0); reflexivity. }
  repeat apply conj.
  - rewrite !flat_map_app. fold run1. unfold run1 at 1.
    rewrite train_sam_makedirs.
    rewrite validate_projection
      by (try (intros []; try discriminate; reflexivity); reflexivity).
    destruct (Nat.eqb r 0); reflexivity.
  - intros ->. reflexivity.
  - exact V.
  - unfold saved, validated. rewrite !flat_map_app.
    change (flat_map (saved_of InValidate)) with (saved InValidate).
    change (flat_map validated_of) with validated.
    unfold run1 at 1 3, train_sam. rewrite train_epochs_periodic.
    rewrite validate_validated.
    assert (S0 : saved InValidate
                   (snd (validate r (model (fst run1)) cfg vl 0))
                 = (if Nat.eqb r 0
                    then [periodic_path cfg
                            (0, validate_score (params (model (fst run1))) vl)]
                    else [])).
    { rewrite validate_unfold. cbn [snd]. unfold saved, periodic_write.
      destruct (Nat.eqb r 0); unroll;
        rewrite (flat_map_blind (saved_of InValidate) meter_event _
                   ltac:(intros []; try discriminate; reflexivity)
                   (validate_loop_meter_events _ _));
        reflexivity. }
    rewrite S0. destruct (Nat.eqb r 0); [|reflexivity].
    change (saved InValidate [EvMakedirs (out_dir cfg)]) with (@nil string).
    change (validated [EvMakedirs (out_dir cfg)]) with (@nil (Z * Q)).
    cbn [app]. rewrite map_app. reflexivity.
  - rewrite <- (length_map fst), V, length_app, py_range_length. cbn. lia.
Qed.

(** [run_directory_and_validations] on rank 0: the directory comes first. *)
Lemma run_directory_and_validations_witness :
  hd_error (run (H := Toy.components) Toy.cfg 0 Toy.model0 0%nat Toy.sched0
              [Toy.batch1] [Toy.batch1])
  = Some (EvMakedirs "out/training").
Proof.
  exact (proj1 (proj2 (run_directory_and_validations (H := Toy.components)
                         Toy.cfg 0 Toy.model0 0%nat Toy.sched0
                         [Toy.batch1] [Toy.batch1])) eq_refl).
Defined.

Lemma for_each_snoc {S X E : Type} (body : S -> X -> S * list E)
    (xs : list X) (x : X) (s : S) :
  for_each body (xs ++ [x]) s
  = (fst (body (fst (for_each body xs s)) x),
     snd (for_each body xs s) ++ snd (body (fst (for_each body xs s)) x)).
Proof.
  revert s. induction xs as [|y xs IH]; intros s; cbn [app for_each fst snd].
  - destruct (body s x) as [s1 t1]. cbn [fst snd app]. rewrite app_nil_r.
    reflexivity.
  - destruct (body s y) as [s1 t1]. rewrite IH.
    destruct (for_each body xs s1) as [s2 t2]. cbn [fst snd].
    rewrite app_assoc. reflexivity.
Qed.

Lemma py_range_snoc (a b : Z) :
  a < b -> py_range a b = py_range a (b - 1) ++ [b - 1].
Proof.
  intros Hab. unfold py_range.
  replace (Z.to_nat (b - a)) with (S (Z.to_nat (b - 1 - a))) by lia.
  rewrite seq_S, map_app. cbn [map Nat.add]. f_equal. f_equal. lia.
Qed.

(** X12. When at least one epoch runs (num_epochs > 1), the final validation
    of [run] evaluates the very parameters the last epoch's validation
    evaluated, the scheduler step in between leaving the model alone: it
    returns the last epoch's score again, under the label 0, and the model
    [train_sam] hands over is in training mode. *)
Theorem final_validation_repeats_last `{Components}
    (cfg : Cfg) (r : nat) (m : Model) (o : Optim) (s : Sched)
    (tl vl : list Batch) :
  1 < num_epochs cfg ->
  let train := train_sam cfg r m o s tl vl in
  exists (earlier : list (Z * Q)) (score : Q),
    validated (snd train) = earlier ++ [(num_epochs cfg - 1, score)]
    /\ validated (run cfg r m o s tl vl)
       = earlier ++ [(num_epochs cfg - 1, score); (0, score)]
    /\ training (model (fst train)) = true.
Proof.
  intros HN train.
  pose proof (run_unfold cfg r m o s tl vl) as R. fold train in R.
  unfold train, train_sam, train_epochs in *.
  rewrite (py_range_snoc 1 (num_epochs cfg) HN) in *.
  rewrite for_each_snoc in *. cbn [fst snd] in *.
  set (st1 := fst (for_each (train_epoch cfg r tl vl)
                     (py_range 1 (num_epochs cfg - 1))
                     {| model := m; optimizer := o; scheduler := s;
                        best_score := 0%Q |})) in *.
  set (t1 := snd (for_each (train_epoch cfg r tl vl)
                    (py_range 1 (num_epochs cfg - 1))
                    {| model := m; optimizer := o; scheduler := s;
                       best_score := 0%Q |})) in *.
  pose proof (train_epoch_validated cfg r tl vl st1 (num_epochs cfg - 1)) as V.
  pose proof (train_epoch_unfold cfg r tl vl st1 (num_epochs cfg - 1)) as U.
  cbv zeta in U.
  set (ps := params (model (fst (fst (train_batches (num_epochs cfg - 1)
                                        tl st1))))) in *.
  exists (validated t1), (validate_score ps vl).
  assert (Em : model (fst (train_epoch cfg r tl vl st1 (num_epochs cfg - 1)))
               = {| params := ps; training := true |}).
  { rewrite U. reflexivity. }
  repeat apply conj.
  - unfold validated in *. rewrite flat_map_app, V. reflexivity.
  - rewrite R. unfold validated in *. rewrite !flat_map_app, V.
    change (flat_map validated_of) with validated.
    rewrite validate_validated, Em. cbn [params].
    destruct (Nat.eqb r 0); cbn [flat_map validated_of app];
      rewrite <- app_assoc; reflexivity.
  - rewrite Em. reflexivity.
Qed.

(** [final_validation_repeats_last] on a run of four epochs: the fourth
    epoch's score 0.6 is returned again under the label 0. *)
Lemma final_validation_repeats_last_witness :
  exists (earlier : list (Z * Q)) (score : Q),
    validated (snd (train_sam (H := Toy.components) Toy.cfg 0 Toy.model0
                      0%nat Toy.sched0 [Toy.batch1] [Toy.batch1]))
    = earlier ++ [(4, score)]
    /\ validated (run (H := Toy.components) Toy.cfg 0 Toy.model0 0%nat
                    Toy.sched0 [Toy.batch1] [Toy.batch1])
       = earlier ++ [(4, score); (0, score)]
    /\ training (model (fst (train_sam (H := Toy.components) Toy.cfg 0
                               Toy.model0 0%nat Toy.sched0
                               [Toy.batch1] [Toy.batch1]))) = true.
Proof.
  apply (final_validation_repeats_last (H := Toy.components) Toy.cfg 0
           Toy.model0 0%nat Toy.sched0 [Toy.batch1] [Toy.batch1]).
  simpl. lia.
Defined.

(** ** Checkpoint names: the epoch can be read back *)

Lemma dec_nilempty (z : Z) :
  Fmt.dec z = NilEmpty.string_of_uint (N.to_uint (Z.to_N z)).
Proof.
  unfold Fmt.dec, NilZero.string_of_uint.
  destruct (N.to_uint (Z.to_N z)) eqn:E; try reflexivity.
  exfalso. destruct (Z.to_N z) as [|p]; [discriminate|].
  exact (DecimalPos.Unsigned.to_uint_nonnil p E).
Qed.

Lemma read_digits_dec (z : Z) : 0 <= z -> read_digits (Fmt.dec z) = Some z.
Proof.
  intros Hz. rewrite dec_nilempty. unfold read_digits.
  rewrite NilEmpty.usu. cbn [option_map].
  rewrite DecimalN.Unsigned.of_to, Z2N.id by exact Hz. reflexivity.
Qed.

Lemma read_digits_zeros (k : nat) (s : string) :
  read_digits (Fmt.zeros k ++ s) = read_digits s.
Proof.
  induction k as [|k IH]; [reflexivity|].
  cbn [Fmt.zeros append]. unfold read_digits in *.
  cbn [NilEmpty.uint_of_string]. rewrite <- IH.
  destruct (NilEmpty.uint_of_string (Fmt.zeros k ++ s)); reflexivity.
Qed.

Lemma string_forall_app (p : ascii -> bool) (a b : string) :
  string_forall p (a ++ b) = (string_forall p a && string_forall p b)%bool.
Proof.
  induction a as [|c a IH]; [reflexivity|].
  cbn [append string_forall]. rewrite IH. apply andb_assoc.
Qed.

Lemma digits_of_uint (d : Decimal.uint) :
  string_forall is_digit (NilEmpty.string_of_uint d) = true.
Proof. induction d; cbn [NilEmpty.string_of_uint string_forall]; auto. Qed.

Lemma digits_of_zeros (k : nat) : string_forall is_digit (Fmt.zeros k) = true.
Proof. induction k as [|k IH]; [reflexivity|]. cbn. exact IH. Qed.

Lemma digits_of_dec (z : Z) : string_forall is_digit (Fmt.dec z) = true.
Proof. rewrite dec_nilempty. apply digits_of_uint. Qed.

(** Two strings of digits, each followed by a non-digit, agree when the whole
    strings agree. *)
Lemma digits_prefix_unique (a b x y : string) (c d : ascii) :
  string_forall is_digit a = true -> string_forall is_digit b = true ->
  is_digit c = false -> is_digit d = false ->
  (a ++ String c x = b ++ String d y)%string -> a = b.
Proof.
  revert b. induction a as [|a0 a IH]; intros b Ha Hb Hc Hd E.
  - destruct b as [|b0 b]; [reflexivity|].
    cbn in E, Hb. injection E as E0 _. subst b0.
    rewrite Hc in Hb. discriminate.
  - destruct b as [|b0 b].
    + cbn in E, Ha. injection E as E0 _. subst a0.
      rewrite Hd in Ha. discriminate.
    + cbn in E, Ha, Hb. injection E as E0 E1. subst b0.
      apply andb_prop in Ha, Hb. f_equal.
      apply IH; tauto.
Qed.

Lemma append_inj_l (a x y : string) : (a ++ x = a ++ y)%string -> x = y.
Proof.
  induction a as [|c a IH]; intros E; [exact E|].
  cbn in E. injection E as E. exact (IH E).
Qed.

Lemma os_path_join_relative (a b : string) :
  Fmt.starts_with_slash b = false ->
  Fmt.os_path_join a b
  = (a ++ (if (String.eqb a "" || Fmt.ends_with_slash a)%bool
           then "" else "/") ++ b)%string.
Proof.
  intros Hb. unfold Fmt.os_path_join. rewrite Hb.
  destruct (String.eqb a "" || Fmt.ends_with_slash a)%bool; reflexivity.
Qed.

(** X13. The epoch can be read back from a checkpoint name, so checkpoints
    of different epochs never share a path: the digits [{epoch}] and
    [{epoch:06d}] print for a non-negative epoch denote that epoch, and two
    periodic paths, or two best paths, under one output directory that are
    equal belong to the same epoch, whatever the scores. *)
Theorem checkpoint_epoch_readable (cfg : Cfg) (e1 e2 : Z) (s1 s2 : Q) :
  0 <= e1 -> 0 <= e2 ->
  read_digits (Fmt.format_d e1) = Some e1
  /\ read_digits (Fmt.format_06d e1) = Some e1
  /\ (periodic_path cfg (e1, s1) = periodic_path cfg (e2, s2) -> e1 = e2)
  /\ (best_path cfg (e1, s1) = best_path cfg (e2, s2) -> e1 = e2).
Proof.
  intros H1 H2.
  assert (Fd : forall e, 0 <= e -> Fmt.format_d e = Fmt.dec e).
  { intros e He. unfold Fmt.format_d.
    destruct (Z.ltb_spec e 0); [lia | reflexivity]. }
  assert (F6 : forall e, 0 <= e ->
               Fmt.format_06d e
               = (Fmt.zeros (6 - String.length (Fmt.dec e)) ++ Fmt.dec e)%string).
  { intros e He. unfold Fmt.format_06d, Fmt.zfill.
    destruct (Z.ltb_spec e 0); [lia | reflexivity]. }
  assert (Rd : forall e, 0 <= e -> read_digits (Fmt.format_d e) = Some e).
  { intros e He. rewrite Fd by exact He. apply read_digits_dec, He. }
  assert (R6 : forall e, 0 <= e -> read_digits (Fmt.format_06d e) = Some e).
  { intros e He. rewrite F6, read_digits_zeros by exact He.
    apply read_digits_dec, He. }
  assert (Dd : forall e, 0 <= e ->
               string_forall is_digit (Fmt.format_d e) = true).
  { intros e He. rewrite Fd by exact He. apply digits_of_dec. }
  assert (D6 : forall e, 0 <= e ->
               string_forall is_digit (Fmt.format_06d e) = true).
  { intros e He. rewrite F6, string_forall_app by exact He.
    rewrite digits_of_zeros, digits_of_dec. reflexivity. }
  repeat apply conj.
  - apply Rd, H1.
  - apply R6, H1.
  - unfold periodic_path. cbn [fst snd].
    rewrite !os_path_join_relative by reflexivity.
    intros E. apply append_inj_l, append_inj_l in E.
    unfold Fmt.periodic_name in E. cbn [append] in E.
    injection E as E.
    apply digits_prefix_unique in E; try reflexivity; try (apply D6; assumption).
    apply (f_equal read_digits) in E. rewrite !R6 in E by assumption.
    congruence.
  - unfold best_path. cbn [fst snd].
    rewrite !os_path_join_relative by reflexivity.
    intros E. apply append_inj_l, append_inj_l in E.
    unfold Fmt.best_name in E. cbn [append] in E.
    injection E as E.
    apply digits_prefix_unique in E; try reflexivity; try (apply Dd; assumption).
    apply (f_equal read_digits) in E. rewrite !Rd in E by assumption.
    congruence.
Qed.

(** [checkpoint_epoch_readable] on epoch 7. *)
Lemma checkpoint_epoch_readable_witness :
  read_digits (Fmt.format_d 7) = Some 7
  /\ read_digits (Fmt.format_06d 7) = Some 7.
Proof.
  destruct (checkpoint_epoch_readable Toy.cfg 7 8 0 0 ltac:(lia) ltac:(lia))
    as (A & B & _).
  split; [exact A | exact B].
Defined.

(** ** Checkpoint names: the score *)

Lemma Qabs_small (n : Z) (d : positive) (k : Z) :
  2 * Z.abs (k * Zpos d - n) <= Zpos d ->
  (Qabs (inject_Z k - (n # d)) <= 1 # 2)%Q.
Proof.
  intros Hk. apply Qabs_Qle_condition.
  unfold Qle, Qminus, Qplus, Qopp, inject_Z. cbn [Qnum Qden].
  split; nia.
Qed.

(** X14. The rounding behind [{score:.2f}] picks a nearest integer, and the
    even one on a tie: the result is within 1/2 of its argument, and an
    argument that lies exactly halfway between two integers is rounded to
    the even one. So the score printed in a file name is within 0.005 of
    the score. *)
Theorem round_half_even_nearest (q : Q) :
  (Qabs (inject_Z (Fmt.round_half_even q) - q) <= 1 # 2)%Q
  /\ ((Qabs (inject_Z (Fmt.round_half_even q) - q) == 1 # 2)%Q ->
      Z.even (Fmt.round_half_even q) = true)
  /\ (Qabs (inject_Z (Fmt.round_half_even (Qabs q * 100)) / 100 - Qabs q)
      <= 1 # 200)%Q.
Proof.
  assert (Near : forall x : Q,
             (Qabs (inject_Z (Fmt.round_half_even x) - x) <= 1 # 2)%Q).
  { intros [n d]. unfold Fmt.round_half_even. cbn [Qnum Qden].
    pose proof (Z.div_mod n (Zpos d) ltac:(lia)) as DM.
    pose proof (Z.mod_pos_bound n (Zpos d) ltac:(lia)) as MB.
    apply Qabs_small.
    destruct (Z.ltb_spec (2 * (n mod Zpos d)) (Zpos d));
      [nia|].
    destruct (Z.ltb_spec (Zpos d) (2 * (n mod Zpos d))); [nia|].
    destruct (Z.even (n / Zpos d)); nia. }
  repeat apply conj.
  - apply Near.
  - destruct q as [n d]. unfold Fmt.round_half_even. cbn [Qnum Qden].
    pose proof (Z.div_mod n (Zpos d) ltac:(lia)) as DM.
    pose proof (Z.mod_pos_bound n (Zpos d) ltac:(lia)) as MB.
    intros E.
    assert (T : forall k, (Qabs (inject_Z k - (n # d)) == 1 # 2)%Q ->
                2 * Z.abs (k * Zpos d - n) = Zpos d).
    { intros k Ek.
      assert (A : (Qabs (inject_Z k - (n # d)) == ((Z.abs (k * Zpos d - n)) # d))%Q).
      { unfold Qminus, Qplus, Qopp, inject_Z, Qabs. cbn [Qnum Qden].
        unfold Qeq. cbn [Qnum Qden].
        replace (k * Zpos d + - n * 1) with (k * Zpos d - n) by lia.
        rewrite Pos.mul_1_l. reflexivity. }
      rewrite A in Ek. unfold Qeq in Ek. cbn [Qnum Qden] in Ek. lia. }
    destruct (Z.ltb_spec (2 * (n mod Zpos d)) (Zpos d)).
    { apply T in E. nia. }
    destruct (Z.ltb_spec (Zpos d) (2 * (n mod Zpos d))).
    { apply T in E. nia. }
    destruct (Z.even (n / Zpos d)) eqn:Ev; [exact Ev|].
    rewrite Z.even_add, Ev. reflexivity.
  - pose proof (Near (Qabs q * 100)%Q) as N.
    set (c := Fmt.round_half_even (Qabs q * 100)) in *.
    apply Qabs_Qle_condition in N. apply Qabs_Qle_condition.
    destruct N as [N1 N2].
    setoid_replace (inject_Z c / 100)%Q with (inject_Z c * (1 # 100))%Q
      by (unfold Qdiv; reflexivity).
    split; lra.
Qed.

Lemma dec_length_small (k : Z) :
  0 <= k < 100 ->
  (1 <= String.length (Fmt.dec k) /\ String.length (Fmt.dec k) <= 2)%nat.
Proof.
  intros Hk.
  assert (A : forallb (fun n => (Nat.leb 1 (String.length (Fmt.dec (Z.of_nat n)))
                                 && Nat.leb (String.length (Fmt.dec (Z.of_nat n))) 2)%bool)
                (seq 0 100) = true) by (vm_compute; reflexivity).
  rewrite forallb_forall in A. specialize (A (Z.to_nat k)).
  rewrite Z2Nat.id in A by lia.
  specialize (A ltac:(apply in_seq; lia)).
  apply andb_prop in A. destruct A as [A1 A2].
  apply Nat.leb_le in A1, A2. split; assumption.
Qed.

Lemma string_length_app (a b : string) :
  String.length (a ++ b) = (String.length a + String.length b)%nat.
Proof. induction a as [|c a IH]; [reflexivity|]. cbn. rewrite IH. reflexivity. Qed.

Lemma zeros_length (k : nat) : String.length (Fmt.zeros k) = k.
Proof. induction k as [|k IH]; [reflexivity|]. cbn. rewrite IH. reflexivity. Qed.

(** X15. [{score:.2f}] always prints a sign (empty for a score that is not
    negative), a non-empty run of digits, a point and exactly two digits. *)
Theorem format_2f_shape (q : Q) :
  exists int_part frac_part : string,
    Fmt.format_2f q
    = ((if Qle_bool 0 q then "" else "-") ++ int_part ++ "." ++ frac_part)%string
    /\ string_forall is_digit int_part = true
    /\ (1 <= String.length int_part)%nat
    /\ string_forall is_digit frac_part = true
    /\ String.length frac_part = 2%nat.
Proof.
  unfold Fmt.format_2f.
  set (c := Fmt.round_half_even (Qabs q * 100)).
  exists (Fmt.dec (c / 100)), (Fmt.zfill 2 (Fmt.dec (c mod 100))).
  pose proof (dec_length_small (c mod 100)
                (Z.mod_pos_bound c 100 ltac:(lia))) as [L1 L2].
  repeat apply conj.
  - reflexivity.
  - apply digits_of_dec.
  - rewrite dec_nilempty.
    destruct (N.to_uint (Z.to_N (c / 100))) eqn:E; cbn; try lia.
    exfalso. destruct (Z.to_N (c / 100)) as [|p]; [discriminate|].
    exact (DecimalPos.Unsigned.to_uint_nonnil p E).
  - unfold Fmt.zfill. rewrite string_forall_app, digits_of_zeros, digits_of_dec.
    reflexivity.
  - unfold Fmt.zfill. rewrite string_length_app, zeros_length. lia.
Qed.

(** ** Checkpoint files stay inside the output directory *)

Lemma checkpoint_shaped_inside `{Components} (cfg : Cfg)
    (w : SaveSite * string * StateDict) :
  checkpoint_shaped cfg w ->
  exists (sep name : string),
    snd (fst w) = (out_dir cfg ++ sep ++ name)%string
    /\ (sep = ""%string \/ sep = "/"%string)
    /\ Fmt.starts_with_slash name = false.
Proof.
  intros (e & sc & ps & [-> | ->]); cbn [fst snd];
    unfold periodic_path, best_path; cbn [fst snd];
    rewrite os_path_join_relative by reflexivity;
    eexists _, _; (split; [reflexivity|]);
    (split; [|reflexivity]);
    destruct (String.eqb (out_dir cfg) "" || Fmt.ends_with_slash (out_dir cfg))%bool;
    auto.
Qed.

(** X16. Every checkpoint of a run is written inside the output directory:
    its path is [out_dir], then nothing or one "/", then a file name that
    does not start with "/" (so [os.path.join] never discards [out_dir]).
    The separator is omitted exactly when [out_dir] is empty or already ends
    with "/". *)
Theorem checkpoints_inside_out_dir `{Components}
    (cfg : Cfg) (r : nat) (m : Model) (o : Optim) (s : Sched)
    (tl vl : list Batch) :
  Forall (fun p => exists (sep name : string),
              p = (out_dir cfg ++ sep ++ name)%string
              /\ (sep = ""%string \/ sep = "/"%string)
              /\ Fmt.starts_with_slash name = false)
    (written_paths (run cfg r m o s tl vl))
  /\ (forall (epoch : Z) (score : Q),
         periodic_path cfg (epoch, score)
         = (out_dir cfg
            ++ (if (String.eqb (out_dir cfg) ""
                    || Fmt.ends_with_slash (out_dir cfg))%bool
                then "" else "/")
            ++ Fmt.periodic_name epoch score)%string
         /\ best_path cfg (epoch, score)
            = (out_dir cfg
               ++ (if (String.eqb (out_dir cfg) ""
                       || Fmt.ends_with_slash (out_dir cfg))%bool
                   then "" else "/")
               ++ Fmt.best_name epoch score)%string).
Proof.
  split.
  - unfold written_paths. apply Forall_map. rewrite run_unfold.
    unfold writes. rewrite !flat_map_app.
    repeat (apply Forall_app; split).
    + destruct (Nat.eqb r 0); constructor.
    + change (flat_map writes_of) with writes.
      pose proof (train_sam_writes_shaped cfg r m o s tl vl) as T.
      revert T. apply Forall_impl. apply checkpoint_shaped_inside.
    + change (flat_map writes_of) with writes.
      pose proof (validate_writes_shaped r
                    (model (fst (train_sam cfg r m o s tl vl))) cfg vl 0) as V.
      revert V. apply Forall_impl. apply checkpoint_shaped_inside.
  - intros epoch score. unfold periodic_path, best_path. cbn [fst snd].
    rewrite !os_path_join_relative by reflexivity. split; reflexivity.
Qed.

(** ** Runs whose scores never exceed 0 *)

Lemma record_breakers_none (prior : list Q) (vals : list (Z * Q)) :
  In 0%Q prior ->
  Forall (fun es => (snd es <= 0)%Q) vals ->
  record_breakers_from prior vals = [].
Proof.
  intros Hin Hall. revert prior Hin.
  induction Hall as [|[e sc] vals Hs _ IH]; intros prior Hin; [reflexivity|].
  cbn [record_breakers_from snd] in *.
  rewrite IH by (apply in_or_app; left; exact Hin).
  destruct (forallb (fun p => Qgtb sc p) prior) eqn:F; [|reflexivity].
  rewrite forallb_forall in F. specialize (F 0%Q Hin).
  apply Qgtb_lt in F. lra.
Qed.

Lemma train_epochs_best_kept `{Components} (cfg : Cfg) (r : nat)
    (tl vl : list Batch) (epochs : list Z) :
  forall st : TrainState,
    Forall (fun es => (snd es <= best_score st)%Q)
      (validated (snd (train_epochs cfg r tl vl epochs st))) ->
    best_score (fst (train_epochs cfg r tl vl epochs st)) = best_score st.
Proof.
  unfold train_epochs.
  induction epochs as [|e es IH]; intros st Hle; cbn [for_each] in *.
  - reflexivity.
  - pose proof (train_epoch_validated cfg r tl vl st e) as V.
    pose proof (train_epoch_best cfg r tl vl st e) as [B _].
    destruct (train_epoch cfg r tl vl st e) as [st1 t1].
    specialize (IH st1).
    destruct (for_each (train_epoch cfg r tl vl) es st1) as [st2 t2].
    cbn [fst snd] in *. unfold validated in *.
    rewrite flat_map_app, V in Hle. cbn [app] in Hle.
    inversion Hle as [|x l Hx Hrest]; subst. cbn [snd] in Hx.
    apply Qgtb_le in Hx. rewrite Hx in B.
    rewrite IH; [exact B|]. rewrite B. exact Hrest.
Qed.

(** X17. A run in which no epoch's validation score is above 0 writes no
    best checkpoint at all and ends with [best_score] still 0: the first
    epoch is not "the best so far" unless its score is positive. *)
Theorem no_positive_score_no_best `{Components}
    (cfg : Cfg) (r : nat) (m : Model) (o : Optim) (s : Sched)
    (tl vl : list Batch) :
  let run := train_sam cfg r m o s tl vl in
  Forall (fun es => (snd es <= 0)%Q) (validated (snd run)) ->
  saved InTrainSam (snd run) = [] /\ best_score (fst run) = 0%Q.
Proof.
  intros run Hall. unfold run, train_sam in *. split.
  - rewrite (train_epochs_best cfg r tl vl _ _ [0%Q]).
    + rewrite record_breakers_none;
        [reflexivity | left; reflexivity | exact Hall].
    + intros x. cbn. apply andb_true_r.
  - rewrite train_epochs_best_kept; [reflexivity | exact Hall].
Qed.

(** [no_positive_score_no_best] on a run validated on one image without
    prompts, for which the toy metric is 0 in every epoch. *)
Lemma no_positive_score_no_best_witness :
  saved InTrainSam
    (snd (train_sam (H := Toy.components) Toy.cfg 0 Toy.model0 0%nat
            Toy.sched0 [Toy.batch1] [([tt], [0%nat], [[]])]))
  = []
  /\ best_score (fst (train_sam (H := Toy.components) Toy.cfg 0 Toy.model0
                        0%nat Toy.sched0 [Toy.batch1]
                        [([tt], [0%nat], [[]])])) = 0%Q.
Proof.
  apply (no_positive_score_no_best (H := Toy.components) Toy.cfg 0
           Toy.model0 0%nat Toy.sched0 [Toy.batch1] [([tt], [0%nat], [[]])]).
  assert (E : validated
                (snd (train_sam (H := Toy.components) Toy.cfg 0 Toy.model0
                        0%nat Toy.sched0 [Toy.batch1]
                        [([tt], [0%nat], [[]])]))
              = [(1, 0%Q); (2, 0%Q); (3, 0%Q); (4, 0%Q)])
    by (vm_compute; reflexivity).
  rewrite E. repeat constructor; unfold Qle; simpl; lia.
Defined.


(** [round_half_even_nearest] on 5/2, halfway between 2 and 3: the even
    neighbour is taken. *)
Lemma round_half_even_nearest_witness :
  Z.even (Fmt.round_half_even (5 # 2)) = true.
Proof.
  apply (proj1 (proj2 (round_half_even_nearest (5 # 2)))).
  vm_compute. reflexivity.
Defined.
